(** * infinity.py: a Tk input dialog with undo/redo and an auto-submit timer

    A shallow embedding of [src/infinity.py].  The program builds one window
    (class [InfinityApp]) around a [tk.Text] widget, runs the Tk main loop and,
    once the window is gone, prints what was captured.

    Layout of the development:
    - [Py]: the Python string operations the script uses ([str.split],
      truthiness, [str(int)], the [:02d] format);
    - [Tk]: the state of the [tk.Text] widget the script drives (characters,
      insert mark, undo and redo stacks) and the widget commands it calls;
    - the application state [App], a small state-and-exception monad [M] and
      the methods of [InfinityApp], one definition per method;
    - the binding tables installed by [__init__] and the dispatch of events
      along the bind tags of the text widget;
    - [mainloop], [get_input] and the module-level printing code;
    - the theorems. *)

From Stdlib Require Import String Ascii List ZArith Lia Bool Floats.
From Stdlib Require Import DecimalString.
Import ListNotations.

Open Scope list_scope.
Open Scope string_scope.

(** ** Python strings *)

Module Py.

(** ['\n'] *)
Definition nl : ascii := "010"%char.

(** [s.split(sep)] for a one-character separator: every occurrence of [sep]
    ends a piece, so the result has one more piece than [s] has separators
    and is never empty ([''.split('\n') == ['']]). *)
Fixpoint split (sep : ascii) (s : string) : list string :=
  match s with
  | EmptyString => [EmptyString]
  | String c s' =>
      if Ascii.eqb c sep then EmptyString :: split sep s'
      else match split sep s' with
           | piece :: rest => String c piece :: rest
           | [] => [String c EmptyString]
           end
  end.

(** [sep.join(pieces)] *)
Fixpoint join (sep : ascii) (pieces : list string) : string :=
  match pieces with
  | [] => EmptyString
  | [p] => p
  | p :: rest => p ++ String sep (join sep rest)
  end.

(** [c in s] for a character. *)
Fixpoint contains (c : ascii) (s : string) : bool :=
  match s with
  | EmptyString => false
  | String d s' => Ascii.eqb d c || contains c s'
  end.

(** Truth value of an [Optional[str]]: [None] and [''] are false. *)
Definition truthy (v : option string) : bool :=
  match v with
  | None => false
  | Some EmptyString => false
  | Some (String _ _) => true
  end.

(** [str(n)], which is also what [f"{n}"] produces for an int. *)
Definition str (n : Z) : string := NilZero.string_of_int (Z.to_int n).

(** [f"{n:02d}"]: zero-padded on the left to width 2. Only the one-character
    results of [str] (the digits 0..9) are shorter than the width. *)
Definition fmt_02d (n : Z) : string :=
  let s := str n in
  if (String.length s <? 2)%nat then "0" ++ s else s.

(** [s[:n]] and [s[n:]] *)
Fixpoint take (n : nat) (s : string) : string :=
  match n, s with
  | S n', String c s' => String c (take n' s')
  | _, _ => EmptyString
  end.

Fixpoint drop (n : nat) (s : string) : string :=
  match n, s with
  | S n', String _ s' => drop n' s'
  | _, _ => s
  end.

(** Decimal digits. *)
Definition is_digit (c : ascii) : bool :=
  (48 <=? nat_of_ascii c)%nat && (nat_of_ascii c <=? 57)%nat.

Fixpoint all_digits (s : string) : bool :=
  match s with
  | EmptyString => true
  | String c s' => is_digit c && all_digits s'
  end.

End Py.

(** ** The [tk.Text] widget

    The widget is the toolkit's, not the script's: this module records the
    part of its documented behaviour that the script relies on.  The widget is
    created with [undo=True, maxundo=-1] (line 33), so every insertion and
    deletion made through [insert]/[delete] is recorded on an unbounded undo
    stack; [autoseparators] keeps its default (on). *)

Module Tk.

Inductive exn : Type :=
| TclError (msg : string).

(** What a command did: returned normally, or raised; the state is the one the
    command left behind in either case. *)
Inductive outcome (S A : Type) : Type :=
| Returns (a : A) (s : S)
| Raises (e : exn) (s : S).
Arguments Returns {S A} a s.
Arguments Raises {S A} e s.

(** Entries of the undo and redo stacks: a checkpoint, or a recorded edit with
    the character offset where it happened and the characters concerned. *)
Inductive atom : Type :=
| Separator
| Inserted (pos : nat) (s : string)
| Deleted (pos : nat) (s : string).

Inductive edit_mode : Type := EditInsert | EditDelete | EditOther.

(** [chars] is what the user sees. The widget's store always ends with one
    more newline, which is not part of [chars] (see [store]). *)
Record Text : Type := mkText {
  chars : string;
  insert_mark : nat;
  undo_stack : list atom;
  redo_stack : list atom;
  last_edit_mode : edit_mode
}.

Definition empty : Text :=
  {| chars := ""; insert_mark := 0; undo_stack := []; redo_stack := [];
     last_edit_mode := EditOther |}.

(** The line-based store: the characters followed by the final newline that a
    text widget always holds. *)
Definition store (w : Text) : string := chars w ++ String Py.nl "".

(** Index expressions: those the script writes, and those the class bindings
    of the toolkit use (the insert mark, a position clicked). *)
Inductive index : Type :=
| Line1Char0      (* "1.0" *)
| End             (* tk.END, just after the final newline *)
| EndMinus1c      (* "end-1c", just before the final newline *)
| InsertMark      (* "insert" *)
| Offset (n : nat).

Definition resolve (w : Text) (i : index) : nat :=
  match i with
  | Line1Char0 => 0
  | End => String.length (store w)
  | EndMinus1c => String.length (store w) - 1
  | InsertMark => Nat.min (insert_mark w) (String.length (chars w))
  | Offset n => Nat.min n (String.length (chars w))
  end.

(** [w.get(i1, i2)] *)
Definition get (i1 i2 : index) (w : Text) : string :=
  let a := resolve w i1 in
  let b := resolve w i2 in
  Py.take (b - a) (Py.drop a (store w)).

(** Unrecorded edits of the characters, with the insert mark following its
    text (right gravity). *)
Definition raw_insert (pos : nat) (s : string) (txt : string) : string :=
  Py.take pos txt ++ s ++ Py.drop pos txt.

Definition raw_delete (pos len : nat) (txt : string) : string :=
  Py.take pos txt ++ Py.drop (pos + len) txt.

Definition mark_after_insert (pos len mark : nat) : nat :=
  if (pos <=? mark)%nat then mark + len else mark.

Definition mark_after_delete (pos len mark : nat) : nat :=
  if (pos + len <=? mark)%nat then mark - len
  else if (pos <? mark)%nat then pos else mark.

(** A separator goes on a stack only when the stack is not empty and its top
    is not a separator already. *)
Definition push_separator (stack : list atom) : list atom :=
  match stack with
  | [] => []
  | Separator :: _ => stack
  | _ :: _ => Separator :: stack
  end.

(** [w.edit_separator()] *)
Definition edit_separator (w : Text) : Text :=
  {| chars := chars w; insert_mark := insert_mark w;
     undo_stack := push_separator (undo_stack w);
     redo_stack := redo_stack w;
     last_edit_mode := last_edit_mode w |}.

(** Recording an edit: with [autoseparators] a separator is pushed when the
    kind of edit changes; the edit is pushed and the redo stack is cleared. *)
Definition record (mode : edit_mode) (a : atom) (w : Text) : list atom :=
  let same := match mode, last_edit_mode w with
              | EditInsert, EditInsert | EditDelete, EditDelete => true
              | _, _ => false
              end in
  a :: (if same then undo_stack w else push_separator (undo_stack w)).

(** [w.insert(i, s)]: inserting the empty string does nothing. *)
Definition insert (i : index) (s : string) (w : Text) : Text :=
  match s with
  | EmptyString => w
  | _ =>
      let pos := Nat.min (resolve w i) (String.length (chars w)) in
      {| chars := raw_insert pos s (chars w);
         insert_mark := mark_after_insert pos (String.length s) (insert_mark w);
         undo_stack := record EditInsert (Inserted pos s) w;
         redo_stack := [];
         last_edit_mode := EditInsert |}
  end.

(** [w.delete(i1, i2)]: the final newline of the store is never deleted, so
    the range is cut at the end of [chars]; an empty range does nothing. *)
Definition delete (i1 i2 : index) (w : Text) : Text :=
  let a := Nat.min (resolve w i1) (String.length (chars w)) in
  let b := Nat.min (resolve w i2) (String.length (chars w)) in
  if (b <=? a)%nat then w
  else
    {| chars := raw_delete a (b - a) (chars w);
       insert_mark := mark_after_delete a (b - a) (insert_mark w);
       undo_stack := record EditDelete (Deleted a (Py.take (b - a) (Py.drop a (chars w)))) w;
       redo_stack := [];
       last_edit_mode := EditDelete |}.

(** Undoing and redoing one recorded edit (nothing is recorded meanwhile). *)
Definition revert_atom (a : atom) (txt : string) (mark : nat) : string * nat :=
  match a with
  | Separator => (txt, mark)
  | Inserted pos s => (raw_delete pos (String.length s) txt, pos)
  | Deleted pos s => (raw_insert pos s txt, pos + String.length s)
  end.

Definition apply_atom (a : atom) (txt : string) (mark : nat) : string * nat :=
  match a with
  | Separator => (txt, mark)
  | Inserted pos s => (raw_insert pos s txt, pos + String.length s)
  | Deleted pos s => (raw_delete pos (String.length s) txt, pos)
  end.

(** Move the edits above the next separator from one stack to the other,
    performing [act] on each; the separator that ends the group is dropped. *)
Fixpoint move_group (act : atom -> string -> nat -> string * nat)
    (from : list atom) (txt : string) (mark : nat) (to : list atom)
    : list atom * string * nat * list atom :=
  match from with
  | [] => ([], txt, mark, to)
  | Separator :: from' => (from', txt, mark, to)
  | a :: from' =>
      let (txt', mark') := act a txt mark in
      move_group act from' txt' mark' (a :: to)
  end.

(** Skip the separator on top of a stack, if there is one. *)
Definition skip_separator (stack : list atom) : list atom :=
  match stack with
  | Separator :: stack' => stack'
  | _ => stack
  end.

(** [w.edit_undo()]: close the current group on both stacks, then revert the
    topmost group of the undo stack onto the redo stack.  With an empty undo
    stack the command fails with a [TclError]. *)
Definition edit_undo (w : Text) : outcome Text unit :=
  let u := push_separator (undo_stack w) in
  let r := push_separator (redo_stack w) in
  match u with
  | [] =>
      Raises (TclError "nothing to undo")
        {| chars := chars w; insert_mark := insert_mark w;
           undo_stack := []; redo_stack := r;
           last_edit_mode := last_edit_mode w |}
  | _ :: _ =>
      let '(u', txt, mark, r') :=
        move_group revert_atom (skip_separator u) (chars w) (insert_mark w) r in
      Returns tt
        {| chars := txt; insert_mark := mark;
           undo_stack := u'; redo_stack := push_separator r';
           last_edit_mode := last_edit_mode w |}
  end.

(** [w.edit_redo()]: the mirror image, from the redo stack to the undo
    stack; fails with a [TclError] when the redo stack is empty. *)
Definition edit_redo (w : Text) : outcome Text unit :=
  let u := push_separator (undo_stack w) in
  match redo_stack w with
  | [] =>
      Raises (TclError "nothing to redo")
        {| chars := chars w; insert_mark := insert_mark w;
           undo_stack := u; redo_stack := [];
           last_edit_mode := last_edit_mode w |}
  | _ :: _ =>
      let '(r', txt, mark, u') :=
        move_group apply_atom (skip_separator (redo_stack w)) (chars w) (insert_mark w) u in
      Returns tt
        {| chars := txt; insert_mark := mark;
           undo_stack := push_separator u'; redo_stack := r';
           last_edit_mode := last_edit_mode w |}
  end.

(** A stack is closed when a new edit would start a group of its own. *)
Definition closed (stack : list atom) : Prop :=
  stack = [] \/ exists rest, stack = Separator :: rest.

End Tk.

(** ** The application state *)

(** Callbacks handed to [root.after]. *)
Inductive callback : Type :=
| ForceScrollbarVisible   (* line 49 *)
| ClearStatus             (* lines 116 and 125 *)
| UpdateTimer             (* line 144 *)
| EditSeparator.          (* line 149 *)

(** A [ttk.Label] as far as the script configures it. *)
Record Label : Type := mkLabel {
  text : string;
  foreground : string
}.

(** The attributes of an [InfinityApp] that the methods read or write, the
    [root.after] queue (delay in milliseconds, callback; newest last) and
    whether [root.destroy()] has happened.  [last_keystroke_time] holds what
    [time.time()] returned, a binary64 float; the int [0] of line 95 enters
    the subtraction of line 101 as [0.0]. *)
Record App : Type := mkApp {
  input_text : Tk.Text;
  status_label : Label;
  timer_label : Label;
  infinity_input : option string;
  auto_submit_time : Z;
  remaining_time : Z;
  last_keystroke_time : float;
  after_queue : list (Z * callback);
  destroyed : bool
}.

Definition with_input_text (w : Tk.Text) (a : App) : App :=
  {| input_text := w; status_label := status_label a; timer_label := timer_label a;
     infinity_input := infinity_input a; auto_submit_time := auto_submit_time a;
     remaining_time := remaining_time a; last_keystroke_time := last_keystroke_time a;
     after_queue := after_queue a; destroyed := destroyed a |}.

Definition with_status_label (l : Label) (a : App) : App :=
  {| input_text := input_text a; status_label := l; timer_label := timer_label a;
     infinity_input := infinity_input a; auto_submit_time := auto_submit_time a;
     remaining_time := remaining_time a; last_keystroke_time := last_keystroke_time a;
     after_queue := after_queue a; destroyed := destroyed a |}.

Definition with_timer_label (l : Label) (a : App) : App :=
  {| input_text := input_text a; status_label := status_label a; timer_label := l;
     infinity_input := infinity_input a; auto_submit_time := auto_submit_time a;
     remaining_time := remaining_time a; last_keystroke_time := last_keystroke_time a;
     after_queue := after_queue a; destroyed := destroyed a |}.

Definition with_infinity_input (v : option string) (a : App) : App :=
  {| input_text := input_text a; status_label := status_label a; timer_label := timer_label a;
     infinity_input := v; auto_submit_time := auto_submit_time a;
     remaining_time := remaining_time a; last_keystroke_time := last_keystroke_time a;
     after_queue := after_queue a; destroyed := destroyed a |}.

Definition with_remaining_time (n : Z) (a : App) : App :=
  {| input_text := input_text a; status_label := status_label a; timer_label := timer_label a;
     infinity_input := infinity_input a; auto_submit_time := auto_submit_time a;
     remaining_time := n; last_keystroke_time := last_keystroke_time a;
     after_queue := after_queue a; destroyed := destroyed a |}.

Definition with_last_keystroke_time (t : float) (a : App) : App :=
  {| input_text := input_text a; status_label := status_label a; timer_label := timer_label a;
     infinity_input := infinity_input a; auto_submit_time := auto_submit_time a;
     remaining_time := remaining_time a; last_keystroke_time := t;
     after_queue := after_queue a; destroyed := destroyed a |}.

Definition with_after_queue (q : list (Z * callback)) (a : App) : App :=
  {| input_text := input_text a; status_label := status_label a; timer_label := timer_label a;
     infinity_input := infinity_input a; auto_submit_time := auto_submit_time a;
     remaining_time := remaining_time a; last_keystroke_time := last_keystroke_time a;
     after_queue := q; destroyed := destroyed a |}.

Definition with_destroyed (b : bool) (a : App) : App :=
  {| input_text := input_text a; status_label := status_label a; timer_label := timer_label a;
     infinity_input := infinity_input a; auto_submit_time := auto_submit_time a;
     remaining_time := remaining_time a; last_keystroke_time := last_keystroke_time a;
     after_queue := after_queue a; destroyed := b |}.

(** ** Methods as state transformers that may raise *)

Definition M (A : Type) : Type := App -> Tk.outcome App A.

Definition ret {A} (a : A) : M A := fun st => Tk.Returns a st.

Definition bind {A B} (m : M A) (k : A -> M B) : M B :=
  fun st =>
    match m st with
    | Tk.Returns a st' => k a st'
    | Tk.Raises e st' => Tk.Raises e st'
    end.

Notation "x <- m ;; k" := (bind m (fun x => k))
  (at level 61, m at next level, right associativity).
Notation "m ;; k" := (bind m (fun _ => k))
  (at level 61, right associativity).

(** [try: body  except tk.TclError: handler] *)
Definition try_except_TclError {A} (body : M A) (handler : M A) : M A :=
  fun st =>
    match body st with
    | Tk.Returns a st' => Tk.Returns a st'
    | Tk.Raises (Tk.TclError _) st' => handler st'
    end.

Definition read {A} (f : App -> A) : M A := fun st => Tk.Returns (f st) st.
Definition modify (f : App -> App) : M unit := fun st => Tk.Returns tt (f st).

(** A command of the text widget run on [self.input_text]. *)
Definition on_input_text {A} (cmd : Tk.Text -> Tk.outcome Tk.Text A) : M A :=
  fun st =>
    match cmd (input_text st) with
    | Tk.Returns a w => Tk.Returns a (with_input_text w st)
    | Tk.Raises e w => Tk.Raises e (with_input_text w st)
    end.

(** [self.root.after(ms, cb)] *)
Definition root_after (ms : Z) (cb : callback) : M unit :=
  modify (fun st => with_after_queue (after_queue st ++ [(ms, cb)])%list st).

(** [self.root.destroy()] *)
Definition root_destroy : M unit := modify (with_destroyed true).

(** The state a method leaves behind, whether it returned or raised. *)
Definition state_of {A} (o : Tk.outcome App A) : App :=
  match o with
  | Tk.Returns _ st => st
  | Tk.Raises _ st => st
  end.

(** ** The methods of [InfinityApp] *)

(** Lines 105-107. *)
Definition edit_separator : M unit :=
  modify (fun st => with_input_text (Tk.edit_separator (input_text st)) st).

(** Lines 97-103; [current_time] is the value [time.time()] returns. *)
Definition on_key_press (current_time : float) : M unit :=
  last <- read last_keystroke_time ;;
  (if PrimFloat.ltb 1%float (PrimFloat.sub current_time last)
   then edit_separator
   else ret tt) ;;
  modify (with_last_keystroke_time current_time).

(** Lines 109-116. *)
Definition undo_action : M unit :=
  try_except_TclError
    (on_input_text Tk.edit_undo)
    (modify (with_status_label {| text := "Nothing to undo"; foreground := "red" |}) ;;
     root_after 1500 ClearStatus).

(** Lines 118-125. *)
Definition redo_action : M unit :=
  try_except_TclError
    (on_input_text Tk.edit_redo)
    (modify (with_status_label {| text := "Nothing to redo"; foreground := "red" |}) ;;
     root_after 1500 ClearStatus).

(** The [lambda] of lines 116 and 125. *)
Definition clear_status : M unit :=
  modify (with_status_label {| text := ""; foreground := "green" |}).

(** Lines 152-155. *)
Definition submit : M unit :=
  modify (fun st =>
    with_infinity_input (Some (Tk.get Tk.Line1Char0 Tk.EndMinus1c (input_text st))) st) ;;
  root_destroy.

(** The text the timer puts in the buffer when it expires (line 140). *)
Definition fallback : string := "run infinity.py".

(** Lines 127-144. [//] and [%] are floor division and its remainder. *)
Definition update_timer : M unit :=
  rt <- read remaining_time ;;
  let minutes := (rt / 60)%Z in
  let seconds := (rt mod 60)%Z in
  modify (fun st => with_timer_label
            {| text := "Auto-submit in: " ++ Py.str minutes ++ ":" ++ Py.fmt_02d seconds;
               foreground := foreground (timer_label st) |} st) ;;
  modify (fun st => with_remaining_time (remaining_time st - 1)%Z st) ;;
  rt' <- read remaining_time ;;
  if (rt' <? 0)%Z then
    modify (fun st => with_input_text (Tk.delete Tk.Line1Char0 Tk.End (input_text st)) st) ;;
    modify (fun st => with_input_text (Tk.insert Tk.Line1Char0 fallback (input_text st)) st) ;;
    submit
  else
    root_after 1000 UpdateTimer.

(** Lines 146-150. *)
Definition handle_paste : M unit :=
  root_after 100 EditSeparator.

(** Lines 9-95. The widgets are created (the timer label with its initial
    text, line 58), [edit_separator] is called (line 66), the bindings are
    installed (see [root_bindings] below), the attributes of lines 87-91 are
    set, [update_timer] runs once (line 92) and the keystroke time is
    initialised (line 95).  [before_first_tick] is the state on entry to
    line 92; [last_keystroke_time] does not exist yet at that point and
    nothing reads it before line 95 assigns it. *)
Definition before_first_tick : App :=
  {| input_text := Tk.edit_separator Tk.empty;
     status_label := {| text := ""; foreground := "green" |};
     timer_label := {| text := "Auto-submit in: 5:30"; foreground := "blue" |};
     infinity_input := None;
     auto_submit_time := 333;
     remaining_time := 333;
     last_keystroke_time := 0%float;
     after_queue := [(100%Z, ForceScrollbarVisible)];
     destroyed := false |}.

Definition init : Tk.outcome App unit :=
  (update_timer ;; modify (with_last_keystroke_time 0%float)) before_first_tick.

(** ** Events and bindings *)

Inductive keysym : Type :=
| KReturn
| KChar (c : ascii).   (* the key that produces [c]: keysym [z] is not keysym [Z] *)

Definition keysym_eqb (a b : keysym) : bool :=
  match a, b with
  | KReturn, KReturn => true
  | KChar c, KChar d => Ascii.eqb c d
  | _, _ => false
  end.

(** A key press: the modifiers held, the key, and the value [time.time()]
    returns while the event is handled. *)
Record key_event : Type := mkKey {
  ev_control : bool;
  ev_shift : bool;
  ev_keysym : keysym;
  ev_time : float
}.

(** An event sequence such as [<Control-Shift-Z>]: the modifiers it requires
    and the key it names ([<Key>] names none). *)
Record key_pattern : Type := mkPattern {
  need_control : bool;
  need_shift : bool;
  detail : option keysym
}.

(** The script's callables that end up in a binding. *)
Inductive handler : Type :=
| CallUndoAction        (* lambda event: self.undo_action() *)
| CallRedoAction        (* lambda event: self.redo_action() *)
| CallSubmit            (* lambda event: self.submit() *)
| ReturnNone            (* lambda event: None *)
| CallOnKeyPress.       (* self.on_key_press *)

Definition handler_eqb (a b : handler) : bool :=
  match a, b with
  | CallUndoAction, CallUndoAction | CallRedoAction, CallRedoAction
  | CallSubmit, CallSubmit | ReturnNone, ReturnNone
  | CallOnKeyPress, CallOnKeyPress => true
  | _, _ => false
  end.

Definition Control_z : key_pattern := mkPattern true false (Some (KChar "z")).
Definition Control_y : key_pattern := mkPattern true false (Some (KChar "y")).
Definition Control_Shift_Z : key_pattern := mkPattern true true (Some (KChar "Z")).
Definition Return : key_pattern := mkPattern false false (Some KReturn).
Definition Shift_Return : key_pattern := mkPattern false true (Some KReturn).
Definition Key : key_pattern := mkPattern false false None.

(** [self.root.bind(...)], lines 69-77, in source order. *)
Definition root_bindings : list (key_pattern * handler) :=
  [ (Control_z, CallUndoAction);
    (Control_y, CallRedoAction);
    (Control_Shift_Z, CallRedoAction);
    (Return, CallSubmit);
    (Shift_Return, ReturnNone) ].

(** [self.input_text.bind("<Key>", ...)], line 83. *)
Definition input_text_bindings : list (key_pattern * handler) :=
  [ (Key, CallOnKeyPress) ].

(** Tk's matching: a pattern matches an event that has at least its modifiers
    and, when the pattern names a key, that key.  Among the matching patterns
    of one tag the most specific one fires: naming a key counts more than any
    modifier, then more modifiers count more. *)
Definition matches (p : key_pattern) (k : key_event) : bool :=
  implb (need_control p) (ev_control k) &&
  implb (need_shift p) (ev_shift k) &&
  match detail p with
  | None => true
  | Some s => keysym_eqb s (ev_keysym k)
  end.

Definition specificity (p : key_pattern) : nat :=
  (match detail p with Some _ => 4 | None => 0 end) +
  (if need_control p then 1 else 0) + (if need_shift p then 1 else 0).

Fixpoint best_match (table : list (key_pattern * handler)) (k : key_event)
    : option (key_pattern * handler) :=
  match table with
  | [] => None
  | (p, h) :: table' =>
      let later := best_match table' k in
      if matches p k then
        match later with
        | Some (q, h') => if (specificity p <? specificity q)%nat then later else Some (p, h)
        | None => Some (p, h)
        end
      else later
  end.

(** The callable that the bindings on [root] select for a key press. *)
Definition root_handler (k : key_event) : option handler :=
  option_map snd (best_match root_bindings k).

(** The event sequences bound on [root] to a given callable. *)
Definition bound_to (h : handler) : list key_pattern :=
  map fst (filter (fun b => handler_eqb (snd b) h) root_bindings).

Definition call (h : handler) (k : key_event) : M unit :=
  match h with
  | CallUndoAction => undo_action
  | CallRedoAction => redo_action
  | CallSubmit => submit
  | ReturnNone => ret tt
  | CallOnKeyPress => on_key_press (ev_time k)
  end.

(** Tkinter runs a callback and, if it raises, reports the exception and
    goes on with the state the callback left. *)
Definition run_callback (m : M unit) (st : App) : App := state_of (m st).

(** The bindings of one tag applied to a key press. No callable of the script
    returns ["break"], so the event always goes on to the next tag, unless the
    window has been destroyed meanwhile. *)
Definition fire (table : list (key_pattern * handler)) (k : key_event) (st : App) : App :=
  if destroyed st then st
  else match best_match table k with
       | Some (_, h) => run_callback (call h k) st
       | None => st
       end.

(** What the user and the toolkit can make happen while the main loop runs.
    The delays of the [after] queue are not turned into a clock: a run says
    which queued callback comes due next. *)
Inductive event : Type :=
| KeyPress (k : key_event)
| Click (pos : nat)            (* button 1 pressed and released in the text *)
| Paste (clipboard : string)   (* the virtual event [<<Paste>>] *)
| SubmitButton                 (* the button of line 62 *)
| AfterFires (n : nat)         (* entry [n] of the [after] queue comes due *)
| WmDeleteWindow.              (* the window manager's close control *)

Definition run_after (cb : callback) : M unit :=
  match cb with
  | ForceScrollbarVisible => ret tt   (* only redraws the scrollbar *)
  | ClearStatus => clear_status
  | UpdateTimer => update_timer
  | EditSeparator => edit_separator
  end.

Fixpoint remove_nth {A} (n : nat) (l : list A) : list A :=
  match n, l with
  | _, [] => []
  | O, _ :: l' => l'
  | S n', x :: l' => x :: remove_nth n' l'
  end.

Section Dispatch.

(** The default bindings of the [Text] class belong to the toolkit.  Those
    for the Return key and for a plain printing key are written out below.
    What the class does with a Control-modified key (cursor motion, the
    platform's [<<Undo>>] and [<<Redo>>] keys, ...) differs between
    platforms and is left open: it may change the widget in any way. *)
Variable class_Control_Key : key_event -> Tk.Text -> Tk.Text.

(** The [Text] class on a key press: Return inserts a newline at the insert
    mark and closes the undo group; a printing key inserts its character. *)
Definition class_Text (k : key_event) (w : Tk.Text) : Tk.Text :=
  match ev_keysym k with
  | KReturn => Tk.edit_separator (Tk.insert Tk.InsertMark (String Py.nl "") w)
  | KChar c =>
      if ev_control k then class_Control_Key k w
      else Tk.insert Tk.InsertMark (String c "") w
  end.

Definition fire_class (f : Tk.Text -> Tk.Text) (st : App) : App :=
  if destroyed st then st else with_input_text (f (input_text st)) st.

(** The state in which the bindings on [root] see a key press: the widget's
    own binding and the class binding have run. *)
Definition before_root (k : key_event) (st : App) : App :=
  fire_class (class_Text k) (fire input_text_bindings k st).

(** The text widget has the focus (line 51); its bind tags are the widget
    itself, its class, the toplevel [root], and [all] (which has no binding
    that matters here). *)
Definition dispatch (e : event) (st : App) : App :=
  match e with
  | KeyPress k => fire root_bindings k (before_root k st)
  | Click pos =>
      let st1 := fire_class (fun w =>
                   Tk.edit_separator
                     (Tk.mkText (Tk.chars w) (Tk.resolve w (Tk.Offset pos))
                        (Tk.undo_stack w) (Tk.redo_stack w) (Tk.last_edit_mode w))) st in
      run_callback edit_separator st1                       (* line 84 *)
  | Paste clipboard =>
      let st1 := run_callback handle_paste st in            (* line 80 *)
      fire_class (fun w =>
        Tk.edit_separator (Tk.insert Tk.InsertMark clipboard (Tk.edit_separator w))) st1
  | SubmitButton => run_callback submit st                  (* line 62 *)
  | AfterFires n =>
      match nth_error (after_queue st) n with
      | Some (_, cb) =>
          run_callback (run_after cb)
            (with_after_queue (remove_nth n (after_queue st)) st)
      | None => st
      end
  | WmDeleteWindow => run_callback root_destroy st
  end.

(** [root.mainloop()]: events are handled one after the other until the
    window is destroyed; what would come after that is never handled. *)
Fixpoint mainloop (events : list event) (st : App) : App :=
  match events with
  | [] => st
  | e :: events' =>
      if destroyed st then st else mainloop events' (dispatch e st)
  end.

(** Lines 157-164. [mainloop] returns only once the window is destroyed:
    [None] stands for a run whose events end with the window still open. *)
Definition get_input (events : list event) : option (option string) :=
  let app := state_of init in
  let app' := mainloop events app in
  if destroyed app' then Some (infinity_input app') else None.

End Dispatch.

(** ** The module-level code *)

(** Lines 171-179: the arguments of the successive [print] calls. *)
Definition printed (infinity_input : option string) : list string :=
  "Prompt:" ::
  (if Py.truthy infinity_input then
     match infinity_input with
     | Some s => Py.split Py.nl s
     | None => []
     end
   else ["(no input provided)"]).

(** What reaches standard output: each [print] writes its argument and a
    newline. *)
Definition stdout (lines : list string) : string :=
  String.concat "" (map (fun l => l ++ String Py.nl "") lines).

(** The whole script on a run of the main loop. *)
Definition script (class_Control_Key : key_event -> Tk.Text -> Tk.Text)
    (events : list event) : option (list string) :=
  option_map printed (get_input class_Control_Key events).

(** ** Vocabulary of the statements *)

(** [quiet st st']: going from [st] to [st'] neither captured anything nor
    closed the window. *)
Definition quiet (st st' : App) : Prop :=
  infinity_input st' = infinity_input st /\ destroyed st' = destroyed st.

(** [closes_or_quiet st st']: either the window is closed in [st'], or
    nothing was captured and the window is as it was. *)
Definition closes_or_quiet (st st' : App) : Prop :=
  destroyed st' = true \/ quiet st st'.

(** While the window is open nothing has been captured. *)
Definition unset_while_open (st : App) : Prop :=
  destroyed st = false -> infinity_input st = None.

(** A key press at time [t] starts an undo group of its own when it comes
    more than a second after the previous key press, so that [on_key_press]
    pushes a separator, or when the undo stack is closed as it is. *)
Definition starts_group (t : float) (st : App) : Prop :=
  PrimFloat.ltb 1%float (PrimFloat.sub t (last_keystroke_time st)) = true \/
  Tk.closed (Tk.undo_stack (input_text st)).

(** A [Text] class that does nothing on Control-modified keys, and a plain
    key press, for the examples. *)
Definition ignore_Control_Key : key_event -> Tk.Text -> Tk.Text := fun _ w => w.

Definition press (c : ascii) (t : float) : event :=
  KeyPress (mkKey false false (KChar c) t).

(** ** Vocabulary of the further properties *)

Definition callback_eqb (a b : callback) : bool :=
  match a, b with
  | ForceScrollbarVisible, ForceScrollbarVisible | ClearStatus, ClearStatus
  | UpdateTimer, UpdateTimer | EditSeparator, EditSeparator => true
  | _, _ => false
  end.

(** How many entries of an [after] queue will call [cb]. *)
Definition pending (cb : callback) (q : list (Z * callback)) : nat :=
  List.length (filter (fun entry => callback_eqb (snd entry) cb) q).

(** The text line 131 builds for a countdown of [n] seconds. *)
Definition timer_text (n : Z) : string :=
  "Auto-submit in: " ++ Py.str (n / 60) ++ ":" ++ Py.fmt_02d (n mod 60).

(** The three things the status line ever shows. *)
Definition status_idle : Label := {| text := ""; foreground := "green" |}.
Definition status_undo : Label := {| text := "Nothing to undo"; foreground := "red" |}.
Definition status_redo : Label := {| text := "Nothing to redo"; foreground := "red" |}.

(** An application state without the text widget and the keystroke time:
    what is left is all that the timer, the status line and the outcome of
    the dialog depend on. *)
Record Shell : Type := mkShell {
  sh_status : Label;
  sh_timer : Label;
  sh_input : option string;
  sh_remaining : Z;
  sh_queue : list (Z * callback);
  sh_destroyed : bool
}.

Definition shell (st : App) : Shell :=
  mkShell (status_label st) (timer_label st) (infinity_input st)
    (remaining_time st) (after_queue st) (destroyed st).

Definition sh_show (l : Label) (s : Shell) : Shell :=
  mkShell l (sh_timer s) (sh_input s) (sh_remaining s) (sh_queue s) (sh_destroyed s).

Definition sh_after (ms : Z) (cb : callback) (s : Shell) : Shell :=
  mkShell (sh_status s) (sh_timer s) (sh_input s) (sh_remaining s)
    (sh_queue s ++ [(ms, cb)])%list (sh_destroyed s).

Definition sh_fired (n : nat) (s : Shell) : Shell :=
  mkShell (sh_status s) (sh_timer s) (sh_input s) (sh_remaining s)
    (remove_nth n (sh_queue s)) (sh_destroyed s).

Definition sh_capture (txt : string) (s : Shell) : Shell :=
  mkShell (sh_status s) (sh_timer s) (Some txt) (sh_remaining s) (sh_queue s) true.

Definition sh_close (s : Shell) : Shell :=
  mkShell (sh_status s) (sh_timer s) (sh_input s) (sh_remaining s) (sh_queue s) true.

Definition sh_count_down (s : Shell) : Shell :=
  mkShell (sh_status s)
    {| text := timer_text (sh_remaining s); foreground := foreground (sh_timer s) |}
    (sh_input s) (sh_remaining s - 1)%Z (sh_queue s) (sh_destroyed s).

(** What handling one event can do to the shell of an open window. *)
Inductive shell_step : event -> Shell -> Shell -> Prop :=
| step_none e s :
    match e with
    | KeyPress k => root_handler k <> Some CallSubmit
    | Click _ => True
    | _ => False
    end ->
    shell_step e s s
| step_undo_fails k s :
    root_handler k = Some CallUndoAction ->
    shell_step (KeyPress k) s (sh_after 1500 ClearStatus (sh_show status_undo s))
| step_redo_fails k s :
    root_handler k = Some CallRedoAction ->
    shell_step (KeyPress k) s (sh_after 1500 ClearStatus (sh_show status_redo s))
| step_submit_key k txt s :
    root_handler k = Some CallSubmit ->
    shell_step (KeyPress k) s (sh_capture txt s)
| step_submit_button txt s :
    shell_step SubmitButton s (sh_capture txt s)
| step_paste clipboard s :
    shell_step (Paste clipboard) s (sh_after 100 EditSeparator s)
| step_stale n s :
    nth_error (sh_queue s) n = None ->
    shell_step (AfterFires n) s s
| step_redraw n ms cb s :
    nth_error (sh_queue s) n = Some (ms, cb) ->
    cb = ForceScrollbarVisible \/ cb = EditSeparator ->
    shell_step (AfterFires n) s (sh_fired n s)
| step_clear n ms s :
    nth_error (sh_queue s) n = Some (ms, ClearStatus) ->
    shell_step (AfterFires n) s (sh_show status_idle (sh_fired n s))
| step_tick n ms s :
    nth_error (sh_queue s) n = Some (ms, UpdateTimer) ->
    (0 <= sh_remaining s - 1)%Z ->
    shell_step (AfterFires n) s (sh_after 1000 UpdateTimer (sh_count_down (sh_fired n s)))
| step_expire n ms s :
    nth_error (sh_queue s) n = Some (ms, UpdateTimer) ->
    (sh_remaining s - 1 < 0)%Z ->
    shell_step (AfterFires n) s (sh_capture fallback (sh_count_down (sh_fired n s)))
| step_close s :
    shell_step WmDeleteWindow s (sh_close s).



(** ** Undo histories that fit the text

    [history u txt]: the undo stack [u] tells how the characters [txt] came
    about, edit by edit, newest first.  [future r txt]: the redo stack [r]
    can be re-applied to [txt], edit by edit. *)
Inductive history : list Tk.atom -> string -> Prop :=
| history_nil txt : history [] txt
| history_separator u txt :
    history u txt -> history (Tk.Separator :: u) txt
| history_inserted u pos s txt :
    pos <= String.length txt -> history u txt ->
    history (Tk.Inserted pos s :: u) (Tk.raw_insert pos s txt)
| history_deleted u pos s txt :
    pos <= String.length txt -> history u (Tk.raw_insert pos s txt) ->
    history (Tk.Deleted pos s :: u) txt.

Inductive future : list Tk.atom -> string -> Prop :=
| future_nil txt : future [] txt
| future_separator r txt :
    future r txt -> future (Tk.Separator :: r) txt
| future_inserted r pos s txt :
    pos <= String.length txt -> future r (Tk.raw_insert pos s txt) ->
    future (Tk.Inserted pos s :: r) txt
| future_deleted r pos s txt :
    pos <= String.length txt -> future r txt ->
    future (Tk.Deleted pos s :: r) (Tk.raw_insert pos s txt).

(** No two separators in a row and none at the bottom, as
    [Tk.push_separator] keeps a stack. *)
Fixpoint tidy (stack : list Tk.atom) : bool :=
  match stack with
  | [] => true
  | Tk.Separator :: stack' =>
      match stack' with
      | [] => false
      | Tk.Separator :: _ => false
      | _ :: _ => tidy stack'
      end
  | _ :: stack' => tidy stack'
  end.

Definition is_separator (a : Tk.atom) : bool :=
  match a with
  | Tk.Separator => true
  | _ => false
  end.

(** A group of edits: no separator in it. *)
Definition no_separator (group : list Tk.atom) : Prop :=
  forallb (fun a => negb (is_separator a)) group = true.

(** The characters after the edits of a group are undone, or redone, in
    stack order. *)
Definition revert_all (group : list Tk.atom) (txt : string) : string :=
  fold_left (fun t a => fst (Tk.revert_atom a t 0)) group txt.

Definition apply_all (group : list Tk.atom) (txt : string) : string :=
  fold_left (fun t a => fst (Tk.apply_atom a t 0)) group txt.

Definition well_formed (w : Tk.Text) : Prop :=
  history (Tk.undo_stack w) (Tk.chars w) /\ tidy (Tk.undo_stack w) = true /\
  future (Tk.redo_stack w) (Tk.chars w) /\ tidy (Tk.redo_stack w) = true.

(** [c in s], counted. *)
Fixpoint count_char (c : ascii) (s : string) : nat :=
  match s with
  | EmptyString => 0
  | String d s' => (if Ascii.eqb d c then 1 else 0) + count_char c s'
  end.

(** The invariant of the countdown, on shells. *)
Definition timer_invariant (s : Shell) : Prop :=
  (-1 <= sh_remaining s <= 332)%Z /\
  text (sh_timer s) = timer_text (sh_remaining s + 1) /\
  (sh_destroyed s = false ->
   (0 <= sh_remaining s)%Z /\ pending UpdateTimer (sh_queue s) = 1) /\
  ((sh_remaining s < 0)%Z -> sh_input s = Some fallback).

(** The invariant of the status line, on shells. *)
Definition status_invariant (s : Shell) : Prop :=
  (sh_status s = status_idle \/ sh_status s = status_undo \/ sh_status s = status_redo) /\
  (sh_status s <> status_idle -> 1 <= pending ClearStatus (sh_queue s)).



(** * Properties *)

(** ** Strings *)

Module PyFacts.
Import Py.

Lemma split_not_nil (sep : ascii) (s : string) : split sep s <> [].
Proof.
  destruct s as [|c s]; simpl; [discriminate|].
  destruct (Ascii.eqb c sep); [discriminate|].
  destruct (split sep s); discriminate.
Qed.

(** Joining the pieces with the separator gives the string back. *)
Lemma join_split (sep : ascii) (s : string) : join sep (split sep s) = s.
Proof.
  induction s as [|c s IH]; simpl; [reflexivity|].
  destruct (Ascii.eqb_spec c sep) as [->|Hne].
  - pose proof (split_not_nil sep s) as Hnil.
    destruct (split sep s) as [|p rest]; [contradiction|].
    simpl in *. now rewrite IH.
  - pose proof (split_not_nil sep s) as Hnil.
    destruct (split sep s) as [|p rest]; [contradiction|].
    destruct rest as [|q rest]; simpl in *; now rewrite <- IH.
Qed.

(** No piece contains the separator. *)
Lemma split_pieces (sep : ascii) (s : string) :
  Forall (fun p => contains sep p = false) (split sep s).
Proof.
  induction s as [|c s IH]; simpl.
  - constructor; [reflexivity|constructor].
  - destruct (Ascii.eqb_spec c sep) as [->|Hne].
    + constructor; [reflexivity|exact IH].
    + destruct (split sep s) as [|p rest]; simpl.
      * constructor; [|constructor]. simpl.
        destruct (Ascii.eqb_spec c sep); [contradiction|reflexivity].
      * inversion IH; subst. constructor; [|assumption]. simpl.
        destruct (Ascii.eqb_spec c sep); [contradiction|assumption].
Qed.

Lemma append_nil_r (s : string) : s ++ "" = s.
Proof. induction s; simpl; congruence. Qed.

Lemma append_assoc (a b c : string) : (a ++ b) ++ c = a ++ (b ++ c).
Proof. induction a; simpl; congruence. Qed.

Lemma length_append (a b : string) :
  String.length (a ++ b) = String.length a + String.length b.
Proof. induction a; simpl; congruence. Qed.

Lemma take_drop (n : nat) (s : string) : take n s ++ drop n s = s.
Proof.
  revert s; induction n as [|n IH]; intros [|c s]; simpl; try reflexivity.
  now rewrite IH.
Qed.

Lemma take_append (a b : string) : take (String.length a) (a ++ b) = a.
Proof. induction a; simpl; [now destruct b|congruence]. Qed.

Lemma drop_append (a b : string) : drop (String.length a) (a ++ b) = b.
Proof. induction a; simpl; [now destruct b|assumption]. Qed.

Lemma take_all (s : string) : take (String.length s) s = s.
Proof. induction s; simpl; congruence. Qed.

Lemma drop_all (s : string) : drop (String.length s) s = "".
Proof. induction s; simpl; [reflexivity|assumption]. Qed.

Lemma length_take (n : nat) (s : string) :
  n <= String.length s -> String.length (take n s) = n.
Proof.
  revert s; induction n as [|n IH]; intros [|c s] H; simpl in *; try lia.
  rewrite IH; lia.
Qed.

Lemma drop_drop (n m : nat) (s : string) : drop n (drop m s) = drop (m + n) s.
Proof.
  revert s; induction m as [|m IH]; intros s; simpl; [reflexivity|].
  destruct s as [|c s]; [now destruct n|apply IH].
Qed.

(** The arguments of the [print] calls, each followed by a newline, are the
    text followed by one newline. *)
Lemma concat_lines_split (s : string) :
  String.concat "" (map (fun l => l ++ String nl "") (split nl s)) = s ++ String nl "".
Proof.
  induction s as [|c s IH]; [reflexivity|].
  simpl split. destruct (Ascii.eqb_spec c nl) as [->|Hne].
  - pose proof (split_not_nil nl s) as Hnil.
    simpl map. destruct (split nl s) as [|p rest]; [contradiction|].
    simpl in *. now rewrite IH.
  - pose proof (split_not_nil nl s) as Hnil.
    destruct (split nl s) as [|p rest]; [contradiction|].
    simpl in *. destruct rest as [|q rest]; simpl in *.
    + now rewrite <- IH.
    + rewrite <- IH. reflexivity.
Qed.

End PyFacts.

(** ** The text widget *)

Module TkFacts.
Import Tk PyFacts.

(** [get("1.0", "end-1c")] is the store without its final newline. *)
Lemma get_all_but_final_newline (w : Text) :
  get Line1Char0 EndMinus1c w = chars w /\
  store w = get Line1Char0 EndMinus1c w ++ String Py.nl "".
Proof.
  assert (H : get Line1Char0 EndMinus1c w = chars w).
  { unfold get, resolve, store. rewrite length_append. simpl.
    replace (String.length (chars w) + 1 - 1 - 0) with (String.length (chars w)) by lia.
    apply take_append. }
  split; [exact H|]. now rewrite H.
Qed.

Lemma raw_delete_raw_insert (pos : nat) (s txt : string) :
  pos <= String.length txt ->
  raw_delete pos (String.length s) (raw_insert pos s txt) = txt.
Proof.
  intros Hpos. unfold raw_delete, raw_insert.
  pose proof (length_take pos txt Hpos) as Hlen.
  rewrite <- Hlen at 1. rewrite take_append.
  rewrite <- drop_drop. rewrite <- Hlen at 2. rewrite drop_append.
  rewrite drop_append. apply take_drop.
Qed.

(** Emptying the widget and inserting [s] at its start leaves exactly [s]. *)
Lemma replace_all (s : string) (w : Text) :
  chars (insert Line1Char0 s (delete Line1Char0 End w)) = s.
Proof.
  assert (Hdel : chars (delete Line1Char0 End w) = "").
  { unfold delete, resolve, store. rewrite length_append. simpl.
    rewrite Nat.min_r by lia.
    destruct (String.length (chars w)) as [|n] eqn:Hlen; simpl.
    - destruct (chars w); [reflexivity|discriminate].
    - unfold raw_delete. simpl.
      destruct (chars w) as [|c t]; [discriminate|].
      injection Hlen as <-. apply drop_all. }
  destruct s as [|c s]; [exact Hdel|].
  unfold insert. cbn [chars resolve]. rewrite Hdel. simpl.
  unfold raw_insert. simpl. now rewrite append_nil_r.
Qed.

Lemma push_separator_closed (stack : list atom) : closed (push_separator stack).
Proof.
  destruct stack as [|[| |] rest]; simpl; [left|right|right|right]; eauto.
Qed.

Lemma push_separator_of_closed (stack : list atom) :
  closed stack -> push_separator stack = stack.
Proof. intros [->|[rest ->]]; reflexivity. Qed.

(** An edit recorded on a closed stack is undone alone, and redone alone. *)
Lemma undo_redo_insert (i : index) (c : ascii) (w : Text) :
  closed (undo_stack w) ->
  let w1 := insert i (String c "") w in
  exists w2 w3,
    edit_undo w1 = Returns tt w2 /\ chars w2 = chars w /\
    edit_redo w2 = Returns tt w3 /\ chars w3 = chars w1.
Proof.
  intros Hclosed w1.
  set (pos := Nat.min (resolve w i) (String.length (chars w))).
  assert (Hpos : pos <= String.length (chars w)) by (subst pos; lia).
  assert (Hrec : undo_stack w1 = Inserted pos (String c "") :: undo_stack w).
  { subst w1. unfold insert. cbn [undo_stack]. unfold record.
    destruct (last_edit_mode w); rewrite ?push_separator_of_closed by assumption; reflexivity. }
  assert (Hchars : chars w1 = raw_insert pos (String c "") (chars w)) by reflexivity.
  assert (Hredo : redo_stack w1 = []) by reflexivity.
  unfold edit_undo. rewrite Hrec, Hredo, Hchars. cbn [push_separator skip_separator].
  cbn [move_group revert_atom].
  change (String.length (String c "")) with 1 in *.
  pose proof (raw_delete_raw_insert pos (String c "") (chars w) Hpos) as Hback.
  change (String.length (String c "")) with 1 in Hback. rewrite Hback.
  destruct Hclosed as [Hu|[rest Hu]]; rewrite Hu; cbn [move_group push_separator];
    eexists; eexists; (split; [reflexivity|]); (split; [reflexivity|]);
    unfold edit_redo; cbn [redo_stack undo_stack chars insert_mark push_separator
                            skip_separator move_group apply_atom];
    (split; [reflexivity|reflexivity]).
Qed.

(** [edit_undo] raises exactly when the undo stack is empty, and then leaves
    the characters alone; likewise [edit_redo] and the redo stack. *)
Lemma edit_undo_raises (w : Text) :
  match edit_undo w with
  | Raises _ w' => undo_stack w = [] /\ chars w' = chars w /\ undo_stack w' = []
  | Returns _ _ => undo_stack w <> []
  end.
Proof.
  unfold edit_undo. destruct (undo_stack w) as [|a u] eqn:Hu.
  - simpl. repeat split.
  - assert (H : exists b v, push_separator (a :: u) = b :: v)
      by (destruct a; simpl; eauto).
    destruct H as (b & v & ->).
    destruct (move_group _ _ _ _ _) as [[[? ?] ?] ?]. discriminate.
Qed.

Lemma edit_redo_raises (w : Text) :
  match edit_redo w with
  | Raises _ w' => redo_stack w = [] /\ chars w' = chars w /\ redo_stack w' = []
  | Returns _ _ => redo_stack w <> []
  end.
Proof.
  unfold edit_redo. destruct (redo_stack w) as [|a r] eqn:Hr.
  - simpl. repeat split.
  - destruct (move_group _ _ _ _ _) as [[[? ?] ?] ?]. discriminate.
Qed.

(** Inserting at the insert mark. *)
Lemma chars_insert_at_mark (s : string) (w : Text) :
  s <> "" ->
  chars (insert InsertMark s w) = raw_insert (resolve w InsertMark) s (chars w).
Proof.
  intros Hs. destruct s as [|c s]; [contradiction|].
  unfold insert, resolve. cbn [chars insert_mark].
  now rewrite Nat.min_l by apply Nat.le_min_r.
Qed.

End TkFacts.

(** ** The methods *)

Ltac run_method :=
  repeat progress
    (unfold bind, read, modify, ret, root_after, root_destroy, try_except_TclError,
       on_input_text, state_of, run_callback in *; cbn in *).

Lemma submit_returns (st : App) :
  submit st =
  Tk.Returns tt
    (with_destroyed true
       (with_infinity_input (Some (Tk.chars (input_text st))) st)).
Proof.
  unfold submit, bind, modify, root_destroy.
  now rewrite (proj1 (TkFacts.get_all_but_final_newline (input_text st))).
Qed.

Lemma on_key_press_quiet (t : float) (st : App) :
  quiet st (state_of (on_key_press t st)) /\
  Tk.chars (input_text (state_of (on_key_press t st))) = Tk.chars (input_text st) /\
  Tk.insert_mark (input_text (state_of (on_key_press t st))) = Tk.insert_mark (input_text st).
Proof.
  unfold quiet, on_key_press, edit_separator. run_method.
  destruct (PrimFloat.ltb _ _); cbn; auto.
Qed.

Lemma on_key_press_returns (t : float) (st : App) :
  on_key_press t st =
  Tk.Returns tt
    (with_last_keystroke_time t
       (with_input_text
          (if PrimFloat.ltb 1%float (PrimFloat.sub t (last_keystroke_time st))
           then Tk.edit_separator (input_text st)
           else input_text st) st)).
Proof.
  unfold on_key_press, edit_separator. run_method.
  destruct (PrimFloat.ltb _ _); cbn; [reflexivity|now destruct st].
Qed.

Lemma undo_action_returns (st : App) :
  exists st', undo_action st = Tk.Returns tt st' /\ quiet st st'.
Proof.
  unfold undo_action, quiet. run_method.
  destruct (Tk.edit_undo (input_text st)) as [[] w|[msg] w]; cbn; eauto.
Qed.

Lemma redo_action_returns (st : App) :
  exists st', redo_action st = Tk.Returns tt st' /\ quiet st st'.
Proof.
  unfold redo_action, quiet. run_method.
  destruct (Tk.edit_redo (input_text st)) as [[] w|[msg] w]; cbn; eauto.
Qed.

Lemma update_timer_returns (st : App) :
  exists st', update_timer st = Tk.Returns tt st' /\ closes_or_quiet st st'.
Proof.
  unfold update_timer, submit, closes_or_quiet, quiet. run_method.
  destruct (remaining_time st - 1 <? 0)%Z; cbn; eauto.
Qed.

Lemma update_timer_expires (st : App) :
  (remaining_time st - 1 < 0)%Z ->
  exists st',
    update_timer st = Tk.Returns tt st' /\
    Tk.chars (input_text st') = fallback /\
    infinity_input st' = Some fallback /\
    destroyed st' = true /\
    after_queue st' = after_queue st.
Proof.
  intros Hneg. apply Z.ltb_lt in Hneg.
  unfold update_timer, bind, read, modify. cbn [remaining_time with_timer_label with_remaining_time].
  rewrite Hneg. rewrite submit_returns.
  eexists. split; [reflexivity|].
  cbn [input_text infinity_input destroyed after_queue with_destroyed
       with_infinity_input with_input_text with_remaining_time with_timer_label].
  rewrite TkFacts.replace_all. auto.
Qed.

Lemma update_timer_reschedules (st : App) :
  (0 <= remaining_time st - 1)%Z ->
  exists st',
    update_timer st = Tk.Returns tt st' /\
    after_queue st' = (after_queue st ++ [(1000%Z, UpdateTimer)])%list /\
    input_text st' = input_text st /\
    infinity_input st' = infinity_input st /\
    destroyed st' = destroyed st.
Proof.
  intros Hpos. apply Z.ltb_ge in Hpos.
  unfold update_timer, bind, read, modify, root_after.
  cbn [remaining_time with_timer_label with_remaining_time].
  rewrite Hpos. eexists. split; [reflexivity|]. cbn. auto.
Qed.

Lemma update_timer_label (st : App) :
  text (timer_label (state_of (update_timer st))) =
    "Auto-submit in: " ++ Py.str (remaining_time st / 60) ++ ":" ++
    Py.fmt_02d (remaining_time st mod 60) /\
  remaining_time (state_of (update_timer st)) = (remaining_time st - 1)%Z.
Proof.
  unfold update_timer, submit. run_method.
  destruct (remaining_time st - 1 <? 0)%Z; cbn; auto.
Qed.

Lemma quiet_refl (st : App) : quiet st st.
Proof. split; reflexivity. Qed.

Lemma closes_or_quiet_refl (st : App) : closes_or_quiet st st.
Proof. right; apply quiet_refl. Qed.

Lemma closes_or_quiet_trans (a b c : App) :
  closes_or_quiet a b -> closes_or_quiet b c -> closes_or_quiet a c.
Proof.
  intros Hab [Hc|[Hi Hd]]; [now left|].
  destruct Hab as [Hb|[Hi' Hd']].
  - left. congruence.
  - right. split; congruence.
Qed.

Lemma call_closes_or_quiet (h : handler) (k : key_event) (st : App) :
  closes_or_quiet st (run_callback (call h k) st).
Proof.
  unfold run_callback. destruct h; cbn [call].
  - destruct (undo_action_returns st) as (st' & -> & H). now right.
  - destruct (redo_action_returns st) as (st' & -> & H). now right.
  - rewrite submit_returns. now left.
  - apply closes_or_quiet_refl.
  - right. apply on_key_press_quiet.
Qed.

Lemma fire_closes_or_quiet (table : list (key_pattern * handler)) (k : key_event) (st : App) :
  closes_or_quiet st (fire table k st).
Proof.
  unfold fire. destruct (destroyed st); [apply closes_or_quiet_refl|].
  destruct (best_match table k) as [[p h]|]; [|apply closes_or_quiet_refl].
  apply call_closes_or_quiet.
Qed.

Lemma run_after_closes_or_quiet (cb : callback) (st : App) :
  closes_or_quiet st (run_callback (run_after cb) st).
Proof.
  unfold run_callback. destruct cb; cbn [run_after].
  - apply closes_or_quiet_refl.
  - right. split; reflexivity.
  - destruct (update_timer_returns st) as (st' & -> & H). exact H.
  - right. split; reflexivity.
Qed.

Section Runs.

Variable class_Control_Key : key_event -> Tk.Text -> Tk.Text.

Lemma fire_class_quiet (f : Tk.Text -> Tk.Text) (st : App) :
  quiet st (fire_class f st).
Proof. unfold fire_class, quiet. destruct (destroyed st) eqn:Hd; cbn; auto. Qed.

Lemma dispatch_closes_or_quiet (e : event) (st : App) :
  closes_or_quiet st (dispatch class_Control_Key e st).
Proof.
  destruct e as [k|pos|clip| |n| ]; cbn [dispatch].
  - eapply closes_or_quiet_trans; [|apply fire_closes_or_quiet].
    eapply closes_or_quiet_trans; [apply fire_closes_or_quiet|].
    right. apply fire_class_quiet.
  - right. unfold fire_class, quiet. destruct (destroyed st) eqn:Hd; cbn; auto.
  - right. unfold fire_class, quiet. cbn. destruct (destroyed st) eqn:Hd; cbn; auto.
  - unfold run_callback. rewrite submit_returns. now left.
  - destruct (nth_error (after_queue st) n) as [[ms cb]|]; [|apply closes_or_quiet_refl].
    eapply closes_or_quiet_trans; [|apply run_after_closes_or_quiet].
    right. split; reflexivity.
  - now left.
Qed.

Lemma mainloop_destroyed (events : list event) (st : App) :
  destroyed st = true -> mainloop class_Control_Key events st = st.
Proof. intros H. destruct events; cbn; [reflexivity|now rewrite H]. Qed.

Lemma mainloop_app (events more : list event) (st : App) :
  mainloop class_Control_Key (events ++ more)%list st =
  mainloop class_Control_Key more (mainloop class_Control_Key events st).
Proof.
  revert st. induction events as [|e events IH]; intros st; cbn; [reflexivity|].
  destruct (destroyed st) eqn:Hd; [|apply IH].
  symmetry. now apply mainloop_destroyed.
Qed.

Lemma mainloop_closes_or_quiet (events : list event) (st : App) :
  closes_or_quiet st (mainloop class_Control_Key events st).
Proof.
  revert st. induction events as [|e events IH]; intros st; cbn.
  - apply closes_or_quiet_refl.
  - destruct (destroyed st); [apply closes_or_quiet_refl|].
    eapply closes_or_quiet_trans; [apply dispatch_closes_or_quiet|apply IH].
Qed.

Lemma init_returns :
  init =
  Tk.Returns tt
    {| input_text := Tk.empty;
       status_label := {| text := ""; foreground := "green" |};
       timer_label := {| text := "Auto-submit in: 5:33"; foreground := "blue" |};
       infinity_input := None;
       auto_submit_time := 333;
       remaining_time := 332;
       last_keystroke_time := 0%float;
       after_queue := [(100%Z, ForceScrollbarVisible); (1000%Z, UpdateTimer)];
       destroyed := false |}.
Proof. reflexivity. Qed.

(** The invariant of the main loop. *)
Lemma mainloop_unset_while_open (events : list event) :
  unset_while_open (mainloop class_Control_Key events (state_of init)).
Proof.
  intros Hopen.
  destruct (mainloop_closes_or_quiet events (state_of init)) as [Hd|[Hi _]].
  - congruence.
  - rewrite Hi. reflexivity.
Qed.

End Runs.

(** ** The printing code *)

Lemma printed_text (s : string) :
  s <> "" ->
  printed (Some s) = "Prompt:" :: Py.split Py.nl s /\
  stdout (printed (Some s)) = "Prompt:" ++ String Py.nl "" ++ s ++ String Py.nl "".
Proof.
  intros Hs. destruct s as [|c s]; [contradiction|].
  set (captured := String c s).
  assert (Hp : printed (Some captured) = "Prompt:" :: Py.split Py.nl captured)
    by reflexivity.
  split; [exact Hp|].
  rewrite Hp. unfold stdout. cbn [map String.concat].
  pose proof (PyFacts.split_not_nil Py.nl captured) as Hnil.
  rewrite (PyFacts.concat_lines_split captured).
  destruct (Py.split Py.nl captured) as [|l ls]; [contradiction|].
  reflexivity.
Qed.

(** * The claims *)

(** C1. The script prints [Prompt:] first.  With nothing captured ([None])
    or with the empty string captured it then prints [(no input provided)];
    otherwise it prints the lines of the captured text, one [print] per line
    and in their order: the printed lines are the text split at its newlines,
    none of them contains a newline, joined by newlines they are the text
    again, and standard output is [Prompt:], a newline, the text, a newline. *)
Theorem printed_prompt_then_lines_or_placeholder :
  (forall v, hd_error (printed v) = Some "Prompt:") /\
  printed None = ["Prompt:"; "(no input provided)"] /\
  printed (Some "") = ["Prompt:"; "(no input provided)"] /\
  (forall c s,
     let captured := String c s in
     printed (Some captured) = "Prompt:" :: Py.split Py.nl captured /\
     Forall (fun line => Py.contains Py.nl line = false) (Py.split Py.nl captured) /\
     Py.join Py.nl (Py.split Py.nl captured) = captured /\
     stdout (printed (Some captured)) =
       "Prompt:" ++ String Py.nl "" ++ captured ++ String Py.nl "") /\
  (forall class_Control_Key events,
     script class_Control_Key events =
     option_map printed (get_input class_Control_Key events)).
Proof.
  split; [intros v; reflexivity|].
  split; [reflexivity|]. split; [reflexivity|].
  split; [|reflexivity].
  intros c s captured.
  assert (Hne : captured <> "") by discriminate.
  destruct (printed_text captured Hne) as [Hp Hout].
  split; [exact Hp|].
  split; [apply PyFacts.split_pieces|].
  split; [apply PyFacts.join_split|exact Hout].
Qed.

Section RunClaims.

Variable class_Control_Key : key_event -> Tk.Text -> Tk.Text.

Local Abbreviation run := (mainloop class_Control_Key).

(** The Submit button.  Whatever happened before, if the window is still
    open and the buffer holds some text, then clicking Submit captures
    exactly the characters of the buffer, that is the widget's store without
    its final newline, and the script prints [Prompt:] followed by that text
    split at its newlines: joined by newlines the printed lines are the text,
    and standard output is the text followed by the single newline of the
    last [print].  (The Return key does not behave so: the [Text] class
    puts a newline in the buffer before [submit] runs.) *)
Theorem submitted_text_is_printed_line_by_line (events : list event) :
  let st := run events (state_of init) in
  let entered := Tk.chars (input_text st) in
  destroyed st = false ->
  entered <> "" ->
  Tk.store (input_text st) = entered ++ String Py.nl "" /\
  infinity_input (state_of (submit st)) = Some entered /\
  destroyed (state_of (submit st)) = true /\
  script class_Control_Key (events ++ [SubmitButton])%list =
    Some ("Prompt:" :: Py.split Py.nl entered) /\
  Py.join Py.nl (Py.split Py.nl entered) = entered /\
  option_map stdout (script class_Control_Key (events ++ [SubmitButton])%list) =
    Some ("Prompt:" ++ String Py.nl "" ++ entered ++ String Py.nl "").
Proof.
  intros st entered Hopen Htext.
  assert (Hscript : script class_Control_Key (events ++ [SubmitButton])%list =
                    Some (printed (Some entered))).
  { unfold script, get_input. rewrite mainloop_app. fold st.
    cbn [mainloop]. rewrite Hopen. cbn [dispatch]. unfold run_callback.
    rewrite submit_returns. reflexivity. }
  destruct (printed_text entered Htext) as [Hp Hout].
  split; [reflexivity|].
  rewrite submit_returns. cbn [state_of].
  split; [reflexivity|]. split; [reflexivity|].
  rewrite Hscript. split; [now rewrite Hp|].
  split; [apply PyFacts.join_split|].
  cbn [option_map]. now rewrite Hout.
Qed.

(** C3. Whatever happened before, if the window is still open, the countdown
    has run down (the next tick takes it below zero) and that tick comes due,
    then the buffer ends up holding the fallback string, that string is what
    is captured, the window is closed, and the script prints [Prompt:] and
    the fallback string and nothing else. *)
Theorem timer_expiry_submits_the_fallback (events : list event) (n : nat) (ms : Z) :
  let st := run events (state_of init) in
  let st' := run (events ++ [AfterFires n])%list (state_of init) in
  destroyed st = false ->
  (remaining_time st <= 0)%Z ->
  nth_error (after_queue st) n = Some (ms, UpdateTimer) ->
  Tk.chars (input_text st') = "run infinity.py" /\
  infinity_input st' = Some "run infinity.py" /\
  destroyed st' = true /\
  script class_Control_Key (events ++ [AfterFires n])%list =
    Some ["Prompt:"; "run infinity.py"].
Proof.
  intros st st' Hopen Hzero Hdue.
  assert (Hst' : st' = run [AfterFires n] st) by apply mainloop_app.
  cbn [mainloop dispatch] in Hst'. rewrite Hopen, Hdue in Hst'.
  set (st1 := with_after_queue (remove_nth n (after_queue st)) st) in Hst'.
  destruct (update_timer_expires st1) as (st2 & Hrun & Hchars & Hinput & Hclosed & _).
  { cbn. lia. }
  unfold run_callback in Hst'. cbn [run_after] in Hst'. rewrite Hrun in Hst'.
  cbn [state_of] in Hst'. subst st2.
  split; [exact Hchars|]. split; [exact Hinput|]. split; [exact Hclosed|].
  unfold script, get_input. fold st'. rewrite Hclosed, Hinput. reflexivity.
Qed.

(** C10. If the window is closed by the window manager while it is still
    open (so [submit] has not run), [get_input] returns [None] and the script
    prints [Prompt:] and [(no input provided)], which is also what it prints
    when the empty string was captured. *)
Theorem closing_without_submit_returns_None (events : list event) :
  let st := run events (state_of init) in
  destroyed st = false ->
  get_input class_Control_Key (events ++ [WmDeleteWindow])%list = Some None /\
  script class_Control_Key (events ++ [WmDeleteWindow])%list =
    Some ["Prompt:"; "(no input provided)"] /\
  printed None = printed (Some "") /\
  script class_Control_Key [SubmitButton] = Some ["Prompt:"; "(no input provided)"].
Proof.
  intros st Hopen.
  assert (Hget : get_input class_Control_Key (events ++ [WmDeleteWindow])%list = Some None).
  { unfold get_input. rewrite mainloop_app. fold st.
    cbn [mainloop dispatch]. rewrite Hopen.
    unfold run_callback, root_destroy, modify. cbn.
    f_equal. exact (mainloop_unset_while_open class_Control_Key events Hopen). }
  split; [exact Hget|]. split; [|split; reflexivity].
  unfold script. now rewrite Hget.
Qed.

(** C7, as the code has it. The captured-result slot is unset when the
    window is created and stays unset for as long as the window is open; an
    event that sets it closes the window in the same step, [submit] being
    what sets it (to the characters of the buffer); once the window is
    closed no event is handled any more, so the slot never changes again.
    It is therefore set at most once; a window closed without [submit]
    leaves it unset. *)
Theorem captured_result_set_by_submit_at_most_once (events : list event) :
  let st := run events (state_of init) in
  infinity_input (state_of init) = None /\
  (destroyed st = false -> infinity_input st = None) /\
  (forall e, destroyed st = false ->
     infinity_input (dispatch class_Control_Key e st) <> None ->
     destroyed (dispatch class_Control_Key e st) = true) /\
  (infinity_input (state_of (submit st)) = Some (Tk.chars (input_text st)) /\
   destroyed (state_of (submit st)) = true) /\
  (forall more, destroyed st = true ->
     run (events ++ more)%list (state_of init) = st) /\
  (forall more, infinity_input st <> None ->
     infinity_input (run (events ++ more)%list (state_of init)) = infinity_input st).
Proof.
  intros st.
  pose proof (mainloop_unset_while_open class_Control_Key events) as Hinv. fold st in Hinv.
  split; [reflexivity|]. split; [exact Hinv|].
  split.
  { intros e Hopen Hset.
    destruct (dispatch_closes_or_quiet class_Control_Key e st) as [Hd|[Hi _]]; [exact Hd|].
    rewrite Hi, (Hinv Hopen) in Hset. contradiction. }
  split; [rewrite submit_returns; split; reflexivity|].
  assert (Hafter : forall more, destroyed st = true ->
            run (events ++ more)%list (state_of init) = st).
  { intros more Hd. rewrite mainloop_app. now apply mainloop_destroyed. }
  split; [exact Hafter|].
  intros more Hset. rewrite Hafter; [reflexivity|].
  destruct (destroyed st) eqn:Hd; [reflexivity|].
  exfalso. apply Hset. now apply Hinv.
Qed.

End RunClaims.

Lemma below_60 (P : Z -> Prop) :
  (forall n : nat, (n < 60)%nat -> P (Z.of_nat n)) ->
  forall z, (0 <= z < 60)%Z -> P z.
Proof.
  intros H z Hz. rewrite <- (Z2Nat.id z) by lia. apply H. lia.
Qed.

Lemma fmt_02d_two_digits (z : Z) :
  (0 <= z < 60)%Z ->
  String.length (Py.fmt_02d z) = 2 /\ Py.all_digits (Py.fmt_02d z) = true.
Proof.
  revert z. apply below_60. intros n Hn.
  do 60 (destruct n as [|n]; [split; vm_compute; reflexivity|]). lia.
Qed.

Lemma str_one_digit (z : Z) :
  (0 <= z < 10)%Z ->
  String.length (Py.str z) = 1 /\ Py.all_digits (Py.str z) = true.
Proof.
  intros Hz. assert (H60 : (0 <= z < 60)%Z) by lia.
  revert z H60 Hz. refine (below_60 _ _). intros n Hn Hz.
  do 10 (destruct n as [|n]; [split; vm_compute; reflexivity|]). lia.
Qed.

(** C4. [undo_action] and [redo_action] always return normally.  With an
    empty undo stack, [undo_action] leaves the characters of the buffer as
    they are, sets the status line to [Nothing to undo] (in red) and queues,
    1500 ms ahead, the callback that clears the status line; [redo_action]
    does the same with [Nothing to redo] when the redo stack is empty. *)
Theorem undo_redo_without_history_show_a_message (st : App) :
  (exists st', undo_action st = Tk.Returns tt st') /\
  (exists st', redo_action st = Tk.Returns tt st') /\
  (Tk.undo_stack (input_text st) = [] ->
   let st' := state_of (undo_action st) in
   Tk.chars (input_text st') = Tk.chars (input_text st) /\
   status_label st' = {| text := "Nothing to undo"; foreground := "red" |} /\
   after_queue st' = (after_queue st ++ [(1500%Z, ClearStatus)])%list /\
   status_label (state_of (run_after ClearStatus st')) =
     {| text := ""; foreground := "green" |}) /\
  (Tk.redo_stack (input_text st) = [] ->
   let st' := state_of (redo_action st) in
   Tk.chars (input_text st') = Tk.chars (input_text st) /\
   status_label st' = {| text := "Nothing to redo"; foreground := "red" |} /\
   after_queue st' = (after_queue st ++ [(1500%Z, ClearStatus)])%list /\
   status_label (state_of (run_after ClearStatus st')) =
     {| text := ""; foreground := "green" |}).
Proof.
  split; [destruct (undo_action_returns st) as (st' & H & _); eauto|].
  split; [destruct (redo_action_returns st) as (st' & H & _); eauto|].
  split; intros Hempty st'; subst st'.
  - unfold undo_action, Tk.edit_undo. run_method. rewrite Hempty. cbn. auto.
  - unfold redo_action, Tk.edit_redo. run_method. rewrite Hempty. cbn. auto.
Qed.

(** C5, the code at start-up. The countdown label is created with the text
    [Auto-submit in: 5:30] (line 58), which is what line 131 computes for
    the 330 seconds the comment of line 89 speaks of.  Line 90 sets the
    countdown to 333 instead and line 92 runs the first tick inside
    [__init__]: when [__init__] returns, the label no longer reads 5:30 but
    [Auto-submit in: 5:33], the text computed from 333; the stored countdown
    is 332 and the next tick is queued one second ahead. *)
Theorem initial_countdown_and_label :
  text (timer_label before_first_tick) = "Auto-submit in: 5:30" /\
  "Auto-submit in: " ++ Py.str (330 / 60) ++ ":" ++ Py.fmt_02d (330 mod 60) =
    "Auto-submit in: 5:30" /\
  auto_submit_time before_first_tick = 333%Z /\
  remaining_time before_first_tick = 333%Z /\
  exists app,
    init = Tk.Returns tt app /\
    text (timer_label app) = "Auto-submit in: " ++ Py.str (333 / 60) ++ ":" ++ Py.fmt_02d (333 mod 60) /\
    text (timer_label app) = "Auto-submit in: 5:33" /\
    text (timer_label app) <> "Auto-submit in: 5:30" /\
    auto_submit_time app = 333%Z /\
    remaining_time app = 332%Z /\
    after_queue app = [(100%Z, ForceScrollbarVisible); (1000%Z, UpdateTimer)].
Proof.
  repeat (split; [reflexivity|]).
  eexists. split; [apply init_returns|]. cbn.
  repeat split; try reflexivity. discriminate.
Qed.

(** C6. A tick shows the countdown it finds as [M:SS] (minutes, a colon,
    seconds as two digits), then decrements it by one.  If the countdown is
    then negative, the buffer is replaced by the fallback string and
    submitted: the string is captured and the window closed, and no further
    tick is queued.  Otherwise one more tick is queued 1000 ms ahead and
    neither the buffer, nor the captured result, nor the window changes. *)
Theorem tick_counts_down_and_shows_the_time (st : App) :
  let rt := remaining_time st in
  let st' := state_of (update_timer st) in
  update_timer st = Tk.Returns tt st' /\
  remaining_time st' = (rt - 1)%Z /\
  text (timer_label st') =
    "Auto-submit in: " ++ Py.str (rt / 60) ++ ":" ++ Py.fmt_02d (rt mod 60) /\
  (rt = 60 * (rt / 60) + rt mod 60 /\ 0 <= rt mod 60 < 60)%Z /\
  String.length (Py.fmt_02d (rt mod 60)) = 2 /\
  Py.all_digits (Py.fmt_02d (rt mod 60)) = true /\
  ((0 <= rt < 600)%Z ->
   String.length (Py.str (rt / 60)) = 1 /\ Py.all_digits (Py.str (rt / 60)) = true) /\
  ((rt - 1 < 0)%Z ->
   Tk.chars (input_text st') = fallback /\
   infinity_input st' = Some fallback /\
   destroyed st' = true /\
   after_queue st' = after_queue st) /\
  ((0 <= rt - 1)%Z ->
   after_queue st' = (after_queue st ++ [(1000%Z, UpdateTimer)])%list /\
   input_text st' = input_text st /\
   infinity_input st' = infinity_input st /\
   destroyed st' = destroyed st).
Proof.
  intros rt st'.
  assert (Hmod : (0 <= rt mod 60 < 60)%Z) by (apply Z.mod_pos_bound; lia).
  destruct (update_timer_returns st) as (r & Hr & _).
  destruct (update_timer_label st) as [Hlabel Hdec].
  destruct (fmt_02d_two_digits (rt mod 60) Hmod) as [Hlen Hdig].
  split; [subst st'; now rewrite Hr|].
  split; [exact Hdec|]. split; [exact Hlabel|].
  split; [split; [apply Z.div_mod; lia|exact Hmod]|].
  split; [exact Hlen|]. split; [exact Hdig|].
  split; [intros Hrt; apply str_one_digit; split;
          [apply Z.div_pos; lia|apply Z.div_lt_upper_bound; lia]|].
  split; intros Hcase.
  - destruct (update_timer_expires st Hcase) as (r' & Hr' & H). subst st'.
    rewrite Hr'. exact H.
  - destruct (update_timer_reschedules st Hcase) as (r' & Hr' & H). subst st'.
    rewrite Hr'. exact H.
Qed.

Section KeyClaims.

Variable class_Control_Key : key_event -> Tk.Text -> Tk.Text.

Local Abbreviation handle := (dispatch class_Control_Key).

Lemma before_root_open (k : key_event) (st : App) :
  destroyed st = false ->
  before_root class_Control_Key k st =
    with_input_text
      (class_Text class_Control_Key k (input_text (state_of (on_key_press (ev_time k) st))))
      (state_of (on_key_press (ev_time k) st)) /\
  destroyed (before_root class_Control_Key k st) = false /\
  infinity_input (before_root class_Control_Key k st) = infinity_input st.
Proof.
  intros Hopen. unfold before_root, fire.
  rewrite Hopen. cbn [input_text_bindings best_match matches Key need_control
                      need_shift detail implb andb call run_callback].
  destruct (on_key_press_quiet (ev_time k) st) as [[Hi Hd] _].
  unfold fire_class, run_callback. rewrite Hd, Hopen.
  cbn [destroyed infinity_input with_input_text]. rewrite Hd, Hi. auto.
Qed.

Lemma handle_key (k : key_event) (st : App) :
  destroyed st = false ->
  handle (KeyPress k) st =
    match root_handler k with
    | Some h => state_of (call h k (before_root class_Control_Key k st))
    | None => before_root class_Control_Key k st
    end.
Proof.
  intros Hopen. destruct (before_root_open k st Hopen) as (_ & Hd & _).
  cbn [dispatch]. unfold fire, root_handler.
  rewrite Hd. destruct (best_match root_bindings k) as [[p h]|]; reflexivity.
Qed.


(** C9. On [root], Return is bound to [submit]: pressing it in an open
    window captures the buffer and closes the window.  Shift+Return is
    bound to a callable that does nothing and does not stop the event, so
    the [Text] class binding is all that acts: a newline goes into the buffer
    at the insert mark, nothing is captured and the window stays open.
    Exactly two sequences, [<Control-y>] and [<Control-Shift-Z>], are bound
    to [redo_action] and exactly one, [<Control-z>], to [undo_action]; the
    corresponding key presses run those methods. *)
Theorem key_bindings_submit_newline_undo_redo (st : App) (t : float) :
  let return_key := mkKey false false KReturn t in
  let shift_return := mkKey false true KReturn t in
  let control_z := mkKey true false (KChar "z") t in
  let control_y := mkKey true false (KChar "y") t in
  let control_shift_z := mkKey true true (KChar "Z") t in
  destroyed st = false ->
  (root_handler return_key = Some CallSubmit /\
   handle (KeyPress return_key) st = state_of (submit (before_root class_Control_Key return_key st)) /\
   destroyed (handle (KeyPress return_key) st) = true /\
   infinity_input (handle (KeyPress return_key) st) =
     Some (Tk.chars (input_text (before_root class_Control_Key return_key st)))) /\
  (root_handler shift_return = Some ReturnNone /\
   Tk.chars (input_text (handle (KeyPress shift_return) st)) =
     Tk.raw_insert (Tk.resolve (input_text st) Tk.InsertMark) (String Py.nl "")
       (Tk.chars (input_text st)) /\
   destroyed (handle (KeyPress shift_return) st) = false /\
   infinity_input (handle (KeyPress shift_return) st) = infinity_input st) /\
  (bound_to CallSubmit = [Return] /\
   bound_to CallRedoAction = [Control_y; Control_Shift_Z] /\
   bound_to CallUndoAction = [Control_z]) /\
  (handle (KeyPress control_z) st = state_of (undo_action (before_root class_Control_Key control_z st)) /\
   handle (KeyPress control_y) st = state_of (redo_action (before_root class_Control_Key control_y st)) /\
   handle (KeyPress control_shift_z) st =
     state_of (redo_action (before_root class_Control_Key control_shift_z st))).
Proof.
  intros return_key shift_return control_z control_y control_shift_z Hopen.
  split.
  { split; [reflexivity|].
    assert (H : handle (KeyPress return_key) st =
                state_of (submit (before_root class_Control_Key return_key st)))
      by (now rewrite handle_key).
    split; [exact H|]. rewrite H, submit_returns. split; reflexivity. }
  split.
  { split; [reflexivity|].
    rewrite handle_key by assumption.
    change (root_handler shift_return) with (Some ReturnNone). cbn [call ret state_of].
    destruct (before_root_open shift_return st Hopen) as (Hb & Hd & Hi).
    split; [|split; assumption].
    rewrite Hb. cbn [input_text with_input_text class_Text ev_keysym shift_return].
    destruct (on_key_press_quiet (ev_time shift_return) st) as (_ & Hc & Hm).
    cbn [Tk.chars Tk.edit_separator].
    rewrite TkFacts.chars_insert_at_mark by discriminate.
    unfold Tk.resolve. now rewrite Hc, Hm. }
  split; [repeat split; reflexivity|].
  repeat split; now rewrite handle_key.
Qed.

End KeyClaims.

Lemma length_split (sep : ascii) (s : string) :
  List.length (Py.split sep s) = S (count_char sep s).
Proof.
  induction s as [|c s IH]; [reflexivity|].
  cbn [Py.split count_char]. destruct (Ascii.eqb c sep); cbn.
  - now rewrite IH.
  - pose proof (PyFacts.split_not_nil sep s) as Hnil.
    destruct (Py.split sep s) as [|p rest]; [contradiction|]. exact IH.
Qed.

Lemma length_raw_insert (pos : nat) (s txt : string) :
  String.length (Tk.raw_insert pos s txt) = String.length s + String.length txt.
Proof.
  unfold Tk.raw_insert. rewrite !PyFacts.length_append.
  rewrite <- (PyFacts.take_drop pos txt) at 3. rewrite PyFacts.length_append. lia.
Qed.

Lemma count_char_append (c : ascii) (a b : string) :
  count_char c (a ++ b) = count_char c a + count_char c b.
Proof. induction a as [|d a IH]; cbn; [reflexivity|]. rewrite IH. lia. Qed.

Lemma count_char_raw_insert (c : ascii) (pos : nat) (s txt : string) :
  count_char c (Tk.raw_insert pos s txt) = count_char c s + count_char c txt.
Proof.
  unfold Tk.raw_insert. rewrite !count_char_append.
  rewrite <- (PyFacts.take_drop pos txt) at 3. rewrite count_char_append. lia.
Qed.

Section ReturnKey.

Variable class_Control_Key : key_event -> Tk.Text -> Tk.Text.

Local Abbreviation run := (mainloop class_Control_Key).

(** C2, where the code departs from it. [submit] takes the buffer without
    the final newline of the store (line 154), and on the Submit button the
    printed lines are the text entered (see
    [submitted_text_is_printed_line_by_line]).  But Return, the key bound to
    [submit] on line 74, reaches the [Text] class first, which inserts a
    newline at the insert mark: what [submit] then captures is the text
    entered with that newline in it, one character and one newline more,
    and the script prints one line more than the text entered has. *)
Theorem return_key_captures_the_newline_it_inserts (events : list event) (t : float) :
  let st := run events (state_of init) in
  let entered := Tk.chars (input_text st) in
  let captured :=
    Tk.raw_insert (Tk.resolve (input_text st) Tk.InsertMark) (String Py.nl "") entered in
  let return_key := KeyPress (mkKey false false KReturn t) in
  destroyed st = false ->
  get_input class_Control_Key (events ++ [return_key])%list = Some (Some captured) /\
  script class_Control_Key (events ++ [return_key])%list =
    Some ("Prompt:" :: Py.split Py.nl captured) /\
  String.length captured = S (String.length entered) /\
  count_char Py.nl captured = S (count_char Py.nl entered) /\
  List.length (Py.split Py.nl captured) = S (List.length (Py.split Py.nl entered)) /\
  captured <> entered /\
  get_input class_Control_Key (events ++ [SubmitButton])%list = Some (Some entered).
Proof.
  intros st entered captured return_key Hopen.
  assert (Hlen : String.length captured = S (String.length entered))
    by (subst captured; now rewrite length_raw_insert).
  assert (Hcount : count_char Py.nl captured = S (count_char Py.nl entered))
    by (subst captured; now rewrite count_char_raw_insert).
  assert (Hkey : Tk.chars (input_text
                    (before_root class_Control_Key (mkKey false false KReturn t) st)) =
                 captured).
  { subst captured entered.
    rewrite (proj1 (before_root_open class_Control_Key _ st Hopen)).
    cbn [ev_time input_text with_input_text class_Text ev_keysym].
    rewrite on_key_press_returns.
    cbn [state_of input_text with_input_text with_last_keystroke_time Tk.chars
         Tk.edit_separator].
    rewrite TkFacts.chars_insert_at_mark by discriminate.
    now destruct (PrimFloat.ltb _ _). }
  assert (Hget : get_input class_Control_Key (events ++ [return_key])%list =
                 Some (Some captured)).
  { unfold get_input. rewrite mainloop_app. fold st. cbn [mainloop]. rewrite Hopen.
    subst return_key. rewrite handle_key by assumption.
    change (root_handler (mkKey false false KReturn t)) with (Some CallSubmit).
    cbn [call]. rewrite submit_returns. cbn [state_of destroyed infinity_input
      with_destroyed with_infinity_input]. now rewrite <- Hkey. }
  split; [exact Hget|]. split.
  { unfold script. rewrite Hget. cbn [option_map].
    assert (Hne : captured <> "")
      by (intros Hempty; rewrite Hempty in Hlen; discriminate).
    now rewrite (proj1 (printed_text captured Hne)). }
  split; [exact Hlen|]. split; [exact Hcount|].
  split; [now rewrite !length_split, Hcount|].
  split; [intros Heq; rewrite Heq in Hlen; lia|].
  unfold get_input. rewrite mainloop_app. fold st. cbn [mainloop dispatch]. rewrite Hopen.
  unfold run_callback. now rewrite submit_returns.
Qed.

End ReturnKey.

(** * The claims on concrete runs *)

(** Type [h], then [i], and press Return: an empty line is printed after
    [hi].  Return alone in a fresh dialog prints two empty lines, not the
    placeholder. *)
Lemma return_key_captures_the_newline_it_inserts_witness :
  script ignore_Control_Key
    ([press "h" 1000%float; press "i" 1000.5%float] ++
     [KeyPress (mkKey false false KReturn 1001%float)])%list =
  Some ["Prompt:"; "hi"; ""] /\
  script ignore_Control_Key ([] ++ [KeyPress (mkKey false false KReturn 1001%float)])%list =
  Some ["Prompt:"; ""; ""].
Proof.
  split.
  - exact (proj1 (proj2 (return_key_captures_the_newline_it_inserts ignore_Control_Key
                           [press "h" 1000%float; press "i" 1000.5%float]
                           1001%float eq_refl))).
  - exact (proj1 (proj2 (return_key_captures_the_newline_it_inserts ignore_Control_Key
                           [] 1001%float eq_refl))).
Defined.


(** Type [h], then [i] half a second later, and click Submit. *)
Lemma submitted_text_is_printed_line_by_line_witness :
  script ignore_Control_Key
    ([press "h" 1000%float; press "i" 1000.5%float] ++ [SubmitButton])%list =
  Some ["Prompt:"; "hi"].
Proof.
  refine (proj1 (proj2 (proj2 (proj2
    (submitted_text_is_printed_line_by_line ignore_Control_Key
       [press "h" 1000%float; press "i" 1000.5%float] _ _))))).
  - vm_compute. reflexivity.
  - vm_compute. discriminate.
Defined.

(** Type [x] and let the timer run out: the tick of [__init__] and 332 more
    bring the countdown to zero, and the next one takes it below. *)
Lemma timer_expiry_submits_the_fallback_witness :
  script ignore_Control_Key
    ((press "x" 1000%float :: repeat (AfterFires 1) 332) ++ [AfterFires 1])%list =
  Some ["Prompt:"; "run infinity.py"].
Proof.
  refine (proj2 (proj2 (proj2
    (timer_expiry_submits_the_fallback ignore_Control_Key
       (press "x" 1000%float :: repeat (AfterFires 1) 332) 1 1000%Z _ _ _)))).
  - vm_compute. reflexivity.
  - vm_compute. discriminate.
  - vm_compute. reflexivity.
Defined.

(** Undo, and redo, in a fresh dialog. *)
Lemma undo_redo_without_history_show_a_message_witness :
  status_label (state_of (undo_action (state_of init))) =
    {| text := "Nothing to undo"; foreground := "red" |} /\
  status_label (state_of (redo_action (state_of init))) =
    {| text := "Nothing to redo"; foreground := "red" |}.
Proof.
  pose proof (undo_redo_without_history_show_a_message (state_of init))
    as (_ & _ & Hundo & Hredo).
  split.
  - exact (proj1 (proj2 (Hundo eq_refl))).
  - exact (proj1 (proj2 (Hredo eq_refl))).
Defined.

(** The second tick of a run, and the tick that finds the countdown at 0. *)
Lemma tick_counts_down_and_shows_the_time_witness :
  text (timer_label (state_of (update_timer (state_of init)))) = "Auto-submit in: 5:32" /\
  after_queue (state_of (update_timer (state_of init))) =
    [(100%Z, ForceScrollbarVisible); (1000%Z, UpdateTimer); (1000%Z, UpdateTimer)] /\
  infinity_input (state_of (update_timer (with_remaining_time 0 (state_of init)))) =
    Some "run infinity.py".
Proof.
  pose proof (tick_counts_down_and_shows_the_time (state_of init))
    as (_ & _ & Hlabel & _ & _ & _ & _ & _ & Hnext).
  pose proof (tick_counts_down_and_shows_the_time (with_remaining_time 0 (state_of init)))
    as (_ & _ & _ & _ & _ & _ & _ & Hlast & _).
  split; [exact Hlabel|]. split.
  - refine (proj1 (Hnext _)). vm_compute. discriminate.
  - refine (proj1 (proj2 (Hlast _))). vm_compute. reflexivity.
Defined.

(** C7 as stated fails: the window manager's close control closes the window
    and the slot is never set. *)
Lemma window_closed_with_result_never_set :
  destroyed (mainloop ignore_Control_Key [WmDeleteWindow] (state_of init)) = true /\
  infinity_input (mainloop ignore_Control_Key [WmDeleteWindow] (state_of init)) = None.
Proof. split; reflexivity. Qed.

(** One key press leaves the slot unset; Submit sets it, and the close
    control that follows changes nothing. *)
Lemma captured_result_set_by_submit_at_most_once_witness :
  infinity_input (mainloop ignore_Control_Key [press "a" 1000%float] (state_of init)) = None /\
  infinity_input
    (mainloop ignore_Control_Key
       ([press "a" 1000%float; SubmitButton] ++ [WmDeleteWindow])%list (state_of init)) =
  Some "a".
Proof.
  split.
  - refine (proj1 (proj2
      (captured_result_set_by_submit_at_most_once ignore_Control_Key
         [press "a" 1000%float])) _).
    vm_compute. reflexivity.
  - refine ((proj2 (proj2 (proj2 (proj2 (proj2
      (captured_result_set_by_submit_at_most_once ignore_Control_Key
         [press "a" 1000%float; SubmitButton])))))) [WmDeleteWindow] _).
    vm_compute. discriminate.
Defined.


(** Return, and Shift+Return, after typing [a]. *)
Lemma key_bindings_submit_newline_undo_redo_witness :
  let st := mainloop ignore_Control_Key [press "a" 1000%float] (state_of init) in
  destroyed (dispatch ignore_Control_Key (KeyPress (mkKey false false KReturn 1001%float)) st) = true /\
  Tk.chars (input_text
    (dispatch ignore_Control_Key (KeyPress (mkKey false true KReturn 1001%float)) st)) =
    String "a" (String Py.nl "") /\
  destroyed (dispatch ignore_Control_Key (KeyPress (mkKey false true KReturn 1001%float)) st) = false.
Proof.
  pose proof (key_bindings_submit_newline_undo_redo ignore_Control_Key
                (mainloop ignore_Control_Key [press "a" 1000%float] (state_of init))
                1001%float eq_refl)
    as [[_ [_ [Hclosed _]]] [[_ [Hnewline [Hopen _]]] _]].
  split; [exact Hclosed|]. split; [exact Hnewline|exact Hopen].
Defined.

(** Type [a], then close the window. *)
Lemma closing_without_submit_returns_None_witness :
  get_input ignore_Control_Key ([press "a" 1000%float] ++ [WmDeleteWindow])%list = Some None /\
  script ignore_Control_Key ([press "a" 1000%float] ++ [WmDeleteWindow])%list =
    Some ["Prompt:"; "(no input provided)"].
Proof.
  pose proof (closing_without_submit_returns_None ignore_Control_Key
                [press "a" 1000%float] eq_refl) as (Hget & Hscript & _).
  split; [exact Hget|exact Hscript].
Defined.

(** Two key presses half a second apart share one undo group: [undo_action]
    after the second removes both, and [redo_action] brings both back. *)
Example quick_typing_is_undone_together :
  let typed := mainloop ignore_Control_Key
                 [press "a" 1000%float; press "b" 1000.5%float] (state_of init) in
  let undone := state_of (undo_action typed) in
  let redone := state_of (redo_action undone) in
  Tk.chars (input_text typed) = "ab" /\
  Tk.chars (input_text undone) = "" /\
  Tk.chars (input_text redone) = "ab".
Proof. repeat split; vm_compute; reflexivity. Qed.

(** Return pressed in the text widget reaches the [Text] class before it
    reaches [root]: the newline it inserts is part of what [submit]
    captures, and so the last line printed is empty. *)
Example return_key_submits_the_newline_too :
  script ignore_Control_Key
    [press "h" 1000%float; press "i" 1000.5%float;
     KeyPress (mkKey false false KReturn 1001%float)] =
  Some ["Prompt:"; "hi"; ""].
Proof. vm_compute. reflexivity. Qed.

(** The scenario of the specification: type [hello], wait two seconds, type
    [ world], click Submit. *)
Example hello_world_scenario :
  script ignore_Control_Key
    [press "h" 1000%float; press "e" 1000.125%float; press "l" 1000.25%float;
     press "l" 1000.375%float; press "o" 1000.5%float;
     press " " 1002.5%float; press "w" 1002.625%float; press "o" 1002.75%float;
     press "r" 1002.875%float; press "l" 1003%float; press "d" 1003.125%float;
     SubmitButton] =
  Some ["Prompt:"; "hello world"].
Proof. vm_compute. reflexivity. Qed.

(** * Further properties *)

(** ** Events seen on the shell *)

Lemma undo_action_shell (st : App) :
  shell (state_of (undo_action st)) = shell st \/
  shell (state_of (undo_action st)) = sh_after 1500 ClearStatus (sh_show status_undo (shell st)).
Proof.
  unfold undo_action. run_method.
  destruct (Tk.edit_undo (input_text st)) as [[] w|[msg] w]; cbn; auto.
Qed.

Lemma redo_action_shell (st : App) :
  shell (state_of (redo_action st)) = shell st \/
  shell (state_of (redo_action st)) = sh_after 1500 ClearStatus (sh_show status_redo (shell st)).
Proof.
  unfold redo_action. run_method.
  destruct (Tk.edit_redo (input_text st)) as [[] w|[msg] w]; cbn; auto.
Qed.

Lemma submit_shell (st : App) :
  shell (state_of (submit st)) = sh_capture (Tk.chars (input_text st)) (shell st).
Proof. now rewrite submit_returns. Qed.

Lemma update_timer_shell (st : App) :
  shell (state_of (update_timer st)) =
  if (remaining_time st - 1 <? 0)%Z
  then sh_capture fallback (sh_count_down (shell st))
  else sh_after 1000 UpdateTimer (sh_count_down (shell st)).
Proof.
  destruct (remaining_time st - 1 <? 0)%Z eqn:Hneg.
  - unfold update_timer, bind, read, modify.
    cbn [remaining_time with_timer_label with_remaining_time].
    rewrite Hneg, submit_returns.
    unfold shell, sh_capture, sh_count_down, timer_text.
    cbn [state_of status_label timer_label infinity_input remaining_time after_queue
         destroyed with_destroyed with_infinity_input with_input_text
         with_remaining_time with_timer_label sh_status sh_timer sh_input
         sh_remaining sh_queue input_text].
    now rewrite TkFacts.replace_all.
  - unfold update_timer, bind, read, modify, root_after.
    cbn [remaining_time with_timer_label with_remaining_time].
    rewrite Hneg. reflexivity.
Qed.

Section Shells.

Variable class_Control_Key : key_event -> Tk.Text -> Tk.Text.

Local Abbreviation handle := (dispatch class_Control_Key).
Local Abbreviation run := (mainloop class_Control_Key).

Lemma before_root_shell (k : key_event) (st : App) :
  destroyed st = false ->
  shell (before_root class_Control_Key k st) = shell st.
Proof.
  intros Hopen.
  rewrite (proj1 (before_root_open class_Control_Key k st Hopen)).
  now rewrite on_key_press_returns.
Qed.

(** Every event handled in an open window is one of the steps on the
    shell. *)
Lemma dispatch_shell_step (e : event) (st : App) :
  destroyed st = false ->
  shell_step e (shell st) (shell (handle e st)).
Proof.
  intros Hopen. destruct e as [k|pos|clip| |n| ].
  - rewrite handle_key by assumption.
    pose proof (before_root_shell k st Hopen) as Hb.
    destruct (root_handler k) as [h|] eqn:Hh.
    + destruct h; cbn [call].
      * destruct (undo_action_shell (before_root class_Control_Key k st)) as [-> | ->];
          rewrite Hb; [apply step_none; cbn; congruence|now apply step_undo_fails].
      * destruct (redo_action_shell (before_root class_Control_Key k st)) as [-> | ->];
          rewrite Hb; [apply step_none; cbn; congruence|now apply step_redo_fails].
      * rewrite submit_shell, Hb. now apply step_submit_key.
      * cbn. rewrite Hb. apply step_none; cbn; congruence.
      * rewrite on_key_press_returns. cbn [state_of].
        change (shell (with_last_keystroke_time _ (with_input_text _ ?x))) with (shell x).
        rewrite Hb. apply step_none; cbn; congruence.
    + rewrite Hb. apply step_none; cbn; congruence.
  - cbn [dispatch]. unfold fire_class, run_callback, edit_separator, modify.
    rewrite Hopen. cbn. now apply step_none.
  - cbn [dispatch]. unfold run_callback, handle_paste, root_after, modify, fire_class.
    cbn. rewrite Hopen. apply step_paste.
  - cbn [dispatch]. unfold run_callback. rewrite submit_shell. apply step_submit_button.
  - cbn [dispatch]. destruct (nth_error (after_queue st) n) as [[ms cb]|] eqn:Hn.
    + unfold run_callback. destruct cb; cbn [run_after].
      * apply (step_redraw n ms ForceScrollbarVisible (shell st)); auto.
      * apply (step_clear n ms (shell st)); auto.
      * rewrite update_timer_shell. cbn [remaining_time with_after_queue].
        destruct (remaining_time st - 1 <? 0)%Z eqn:Hneg.
        -- apply (step_expire n ms (shell st)); [exact Hn|now apply Z.ltb_lt].
        -- apply (step_tick n ms (shell st)); [exact Hn|now apply Z.ltb_ge].
      * apply (step_redraw n ms EditSeparator (shell st)); auto.
    + now apply step_stale.
  - apply step_close.
Qed.

(** A property of shells that holds after [__init__] and survives every
    step from an open window holds after every run. *)
Lemma run_invariant (I : Shell -> Prop) :
  I (shell (state_of init)) ->
  (forall e s s', sh_destroyed s = false -> I s -> shell_step e s s' -> I s') ->
  forall events, I (shell (run events (state_of init))).
Proof.
  intros Hinit Hstep events.
  induction events as [|e events IH] using rev_ind; [exact Hinit|].
  rewrite mainloop_app. cbn [mainloop].
  destruct (destroyed (run events (state_of init))) eqn:Hd; [exact IH|].
  apply (Hstep e (shell (run events (state_of init))));
    [exact Hd|exact IH|now apply dispatch_shell_step].
Qed.

End Shells.

(** ** The [after] queue *)

Lemma pending_app (cb : callback) (q : list (Z * callback)) (ms : Z) (cb' : callback) :
  pending cb (q ++ [(ms, cb')])%list =
  pending cb q + (if callback_eqb cb' cb then 1 else 0).
Proof.
  unfold pending. rewrite filter_app, length_app. cbn.
  now destruct (callback_eqb cb' cb).
Qed.

Lemma pending_remove_nth (cb : callback) (q : list (Z * callback)) (n : nat)
    (ms : Z) (cb' : callback) :
  nth_error q n = Some (ms, cb') ->
  pending cb q = pending cb (remove_nth n q) + (if callback_eqb cb' cb then 1 else 0).
Proof.
  unfold pending. revert n. induction q as [|[ms0 cb0] q IH]; intros [|n] Hn;
    cbn in Hn; try discriminate.
  - injection Hn as -> ->. cbn. destruct (callback_eqb cb' cb); cbn; lia.
  - cbn. specialize (IH n Hn). destruct (callback_eqb cb0 cb); cbn; lia.
Qed.



(** ** The countdown *)

Lemma timer_invariant_step (e : event) (s s' : Shell) :
  sh_destroyed s = false -> timer_invariant s -> shell_step e s s' -> timer_invariant s'.
Proof.
  intros Hopen (Hrange & Htext & Hq & _) Hstep.
  destruct (Hq Hopen) as [Hpos Hone].
  unfold timer_invariant.
  inversion Hstep; subst; cbn [sh_remaining sh_timer sh_queue sh_destroyed sh_after
    sh_show sh_fired sh_capture sh_close sh_count_down sh_input text] in *;
    rewrite ?pending_app;
    try match goal with
        | H : nth_error _ _ = Some _ |- _ =>
            rewrite (pending_remove_nth UpdateTimer _ _ _ _ H) in Hone
        end;
    repeat match goal with H : _ \/ _ |- _ => destruct H; subst end;
    cbn [callback_eqb] in *;
    try match goal with
        | |- context [(?r - 1 + 1)%Z] => replace (r - 1 + 1)%Z with r by lia
        end;
    repeat split; intros; auto; try lia; try discriminate.
Qed.

Lemma run_timer_invariant (class_Control_Key : key_event -> Tk.Text -> Tk.Text)
    (events : list event) :
  timer_invariant (shell (mainloop class_Control_Key events (state_of init))).
Proof.
  apply run_invariant.
  - repeat split; cbn; try lia; reflexivity.
  - apply timer_invariant_step.
Qed.

(** X1. After any run the countdown lies between -1 and 332.  While the
    window is open it is not negative and exactly one tick is pending in the
    [after] queue, so the timer neither stops nor runs twice; a negative
    countdown means the dialog timed out: the window is closed and the
    fallback string is the result. *)
Theorem countdown_in_range_with_one_tick_pending
    (class_Control_Key : key_event -> Tk.Text -> Tk.Text) (events : list event) :
  let st := mainloop class_Control_Key events (state_of init) in
  (-1 <= remaining_time st <= 332)%Z /\
  (destroyed st = false ->
   (0 <= remaining_time st)%Z /\ pending UpdateTimer (after_queue st) = 1) /\
  ((remaining_time st < 0)%Z ->
   destroyed st = true /\ infinity_input st = Some "run infinity.py").
Proof.
  intros st.
  destruct (run_timer_invariant class_Control_Key events) as (Hrange & _ & Hopen & Hout).
  fold st in Hrange, Hopen, Hout. cbn in Hrange, Hopen, Hout.
  split; [exact Hrange|]. split; [exact Hopen|].
  intros Hneg. split; [|now apply Hout].
  destruct (destroyed st) eqn:Hd; [reflexivity|].
  destruct (Hopen eq_refl). lia.
Qed.

(** X2. After any run the timer label shows, as [M:SS], one second more
    than the stored countdown (line 131 writes the label before line 134
    decrements): one digit of minutes, a colon, two digits of seconds. *)
Theorem label_shows_countdown_plus_one
    (class_Control_Key : key_event -> Tk.Text -> Tk.Text) (events : list event) :
  let st := mainloop class_Control_Key events (state_of init) in
  let shown := (remaining_time st + 1)%Z in
  text (timer_label st) =
    "Auto-submit in: " ++ Py.str (shown / 60) ++ ":" ++ Py.fmt_02d (shown mod 60) /\
  (0 <= shown <= 333)%Z /\
  String.length (Py.str (shown / 60)) = 1 /\
  Py.all_digits (Py.str (shown / 60)) = true /\
  String.length (Py.fmt_02d (shown mod 60)) = 2 /\
  Py.all_digits (Py.fmt_02d (shown mod 60)) = true.
Proof.
  intros st shown.
  destruct (run_timer_invariant class_Control_Key events) as (Hrange & Htext & _).
  fold st in Hrange, Htext. cbn in Hrange, Htext.
  assert (Hshown : (0 <= shown <= 333)%Z) by (subst shown; lia).
  destruct (str_one_digit (shown / 60)) as [Hm1 Hm2].
  { split; [apply Z.div_pos; lia|apply Z.div_lt_upper_bound; lia]. }
  destruct (fmt_02d_two_digits (shown mod 60)) as [Hs1 Hs2].
  { apply Z.mod_pos_bound. lia. }
  repeat split; auto; lia.
Qed.

Lemma shell_step_keeps_timer (e : event) (s s' : Shell) :
  shell_step e s s' ->
  (forall n ms, e = AfterFires n -> nth_error (sh_queue s) n <> Some (ms, UpdateTimer)) ->
  sh_remaining s' = sh_remaining s /\ sh_timer s' = sh_timer s.
Proof.
  intros Hstep Hnot.
  destruct Hstep; try (split; reflexivity); exfalso; eapply Hnot; eauto.
Qed.

(** X3. In an open window no event other than a pending tick coming due
    changes the countdown or the timer label: typing, clicking, pasting,
    undoing and redoing do not postpone the timeout. *)
Theorem only_a_tick_moves_the_countdown
    (class_Control_Key : key_event -> Tk.Text -> Tk.Text) (e : event) (st : App) :
  destroyed st = false ->
  (forall n ms, e = AfterFires n ->
     nth_error (after_queue st) n <> Some (ms, UpdateTimer)) ->
  remaining_time (dispatch class_Control_Key e st) = remaining_time st /\
  timer_label (dispatch class_Control_Key e st) = timer_label st.
Proof.
  intros Hopen Hnot.
  exact (shell_step_keeps_timer e (shell st) (shell (dispatch class_Control_Key e st))
           (dispatch_shell_step class_Control_Key e st Hopen) Hnot).
Qed.

(** The first key press of a dialog leaves the countdown at 332. *)
Lemma only_a_tick_moves_the_countdown_witness :
  remaining_time (dispatch ignore_Control_Key (press "a" 1000%float) (state_of init)) = 332%Z.
Proof.
  refine (proj1 (only_a_tick_moves_the_countdown ignore_Control_Key
                   (press "a" 1000%float) (state_of init) eq_refl _)).
  intros n ms He. discriminate He.
Defined.

(** ** The status line *)

Lemma status_invariant_step (e : event) (s s' : Shell) :
  status_invariant s -> shell_step e s s' -> status_invariant s'.
Proof.
  intros [Hkind Hclear] Hstep. unfold status_invariant.
  destruct Hstep; cbn [sh_status sh_queue sh_after sh_show sh_fired sh_capture
                       sh_close sh_count_down];
    rewrite ?pending_app; cbn [callback_eqb];
    try match goal with
        | H : nth_error _ _ = Some _ |- _ =>
            rewrite (pending_remove_nth ClearStatus _ _ _ _ H) in Hclear
        end;
    repeat match goal with H : _ = _ \/ _ = _ |- _ => destruct H; subst end;
    cbn [callback_eqb] in *;
    (split; [auto|intros Hshown; try contradiction; try specialize (Hclear Hshown); lia]).
Qed.

(** X4. After any run the status line shows nothing (in green) or one of
    the two error messages (in red), and whenever a message is showing, a
    callback that clears the status line is pending in the [after] queue:
    no message is left standing. *)
Theorem status_message_always_has_its_clearing_pending
    (class_Control_Key : key_event -> Tk.Text -> Tk.Text) (events : list event) :
  let st := mainloop class_Control_Key events (state_of init) in
  (status_label st = {| text := ""; foreground := "green" |} \/
   status_label st = {| text := "Nothing to undo"; foreground := "red" |} \/
   status_label st = {| text := "Nothing to redo"; foreground := "red" |}) /\
  (text (status_label st) <> "" -> 1 <= pending ClearStatus (after_queue st)).
Proof.
  intros st.
  assert (H : status_invariant (shell st)).
  { apply run_invariant.
    - split; [now left|intros H; now contradiction H].
    - intros e s s' _. apply status_invariant_step. }
  destruct H as [Hkind Hclear]. cbn in Hkind, Hclear.
  split; [exact Hkind|].
  intros Htext. apply Hclear. intros Hidle. now rewrite Hidle in Htext.
Qed.

(** ** What the keys on [root] do *)

Lemma root_handler_table (k : key_event) :
  root_handler k =
  match ev_keysym k with
  | KReturn => Some (if ev_shift k then ReturnNone else CallSubmit)
  | KChar c =>
      if ev_control k then
        if Ascii.eqb c "z" then Some CallUndoAction
        else if Ascii.eqb c "y" then Some CallRedoAction
        else if Ascii.eqb c "Z" && ev_shift k then Some CallRedoAction
        else None
      else None
  end.
Proof.
  destruct k as [control shift [|c] t].
  - destruct control, shift; reflexivity.
  - destruct control, shift, c as [[] [] [] [] [] [] [] []]; reflexivity.
Qed.

Lemma keys_reaching_submit (k : key_event) :
  root_handler k = Some CallSubmit <-> ev_keysym k = KReturn /\ ev_shift k = false.
Proof.
  rewrite root_handler_table.
  destruct k as [control shift [|c] t]; cbn [ev_keysym ev_shift ev_control].
  - destruct shift; split; intros; try discriminate; intuition congruence.
  - destruct control;
      [destruct (Ascii.eqb c "z"), (Ascii.eqb c "y"), (Ascii.eqb c "Z" && shift)|];
      split; intros H; try discriminate; destruct H; discriminate.
Qed.

(** X5. Which key presses reach which callable of lines 69-77, under Tk's
    matching: [submit] is run by Return exactly when Shift is not held
    (Control+Return submits as well); Return with Shift reaches the callable
    that does nothing; [undo_action] is run exactly by Control with the key
    [z]; [redo_action] exactly by Control with the key [y], or Control and
    Shift with the key [Z]. *)
Theorem keys_reaching_each_callable (k : key_event) :
  (root_handler k = Some CallSubmit <->
   ev_keysym k = KReturn /\ ev_shift k = false) /\
  (root_handler k = Some ReturnNone <->
   ev_keysym k = KReturn /\ ev_shift k = true) /\
  (root_handler k = Some CallUndoAction <->
   ev_control k = true /\ ev_keysym k = KChar "z") /\
  (root_handler k = Some CallRedoAction <->
   ev_control k = true /\
   (ev_keysym k = KChar "y" \/ ev_keysym k = KChar "Z" /\ ev_shift k = true)) /\
  (root_handler k <> Some CallOnKeyPress).
Proof.
  rewrite root_handler_table.
  destruct k as [control shift [|c] t]; cbn [ev_keysym ev_shift ev_control].
  - destruct shift; repeat split; intros; try discriminate;
      try (intuition congruence).
  - destruct control;
      [destruct (Ascii.eqb_spec c "z") as [->|Hz];
       [|destruct (Ascii.eqb_spec c "y") as [->|Hy];
         [|destruct (Ascii.eqb_spec c "Z") as [->|HZ]; destruct shift]]|];
      cbn; repeat split; intros; try discriminate; try (intuition congruence).
Qed.

(** ** What closes the window *)

Lemma shell_step_closing (e : event) (s s' : Shell) :
  shell_step e s s' ->
  sh_destroyed s = false ->
  sh_destroyed s' = true ->
  (exists k, e = KeyPress k /\ root_handler k = Some CallSubmit /\ sh_input s' <> None) \/
  (e = SubmitButton /\ sh_input s' <> None) \/
  (exists n ms, e = AfterFires n /\ nth_error (sh_queue s) n = Some (ms, UpdateTimer) /\
                (sh_remaining s <= 0)%Z /\ sh_input s' = Some fallback) \/
  (e = WmDeleteWindow /\ sh_input s' = sh_input s).
Proof.
  intros Hstep Hopen Hclosed.
  destruct Hstep; cbn [sh_destroyed sh_input sh_after sh_show sh_fired sh_capture
                       sh_close sh_count_down] in *; try congruence.
  - left. exists k. repeat split; [assumption|discriminate].
  - right; left. split; [reflexivity|discriminate].
  - right; right; left. exists n, ms. repeat split; [assumption|lia].
  - right; right; right. split; reflexivity.
Qed.

(** X6. Only four things close an open window: Return pressed without
    Shift, the Submit button, a tick that comes due when the countdown is
    used up, and the window manager's close control.  The first three
    capture a result (the tick always the fallback string); the last leaves
    the result as it was.  Typing, clicking, pasting, undoing and redoing
    never close the window. *)
Theorem what_closes_the_window
    (class_Control_Key : key_event -> Tk.Text -> Tk.Text) (e : event) (st : App) :
  let st' := dispatch class_Control_Key e st in
  destroyed st = false ->
  destroyed st' = true ->
  (exists k, e = KeyPress k /\ ev_keysym k = KReturn /\ ev_shift k = false /\
             infinity_input st' <> None) \/
  (e = SubmitButton /\ infinity_input st' <> None) \/
  (exists n ms, e = AfterFires n /\ nth_error (after_queue st) n = Some (ms, UpdateTimer) /\
                (remaining_time st <= 0)%Z /\ infinity_input st' = Some "run infinity.py") \/
  (e = WmDeleteWindow /\ infinity_input st' = infinity_input st).
Proof.
  intros st' Hopen Hclosed.
  destruct (shell_step_closing e (shell st) (shell st')
              (dispatch_shell_step class_Control_Key e st Hopen) Hopen Hclosed)
    as [(k & He & Hk & Hin)|[H|[H|H]]]; auto.
  left. exists k. apply (proj1 (keys_reaching_submit k)) in Hk. tauto.
Qed.

(** The tick that finds the countdown at zero closes the window. *)
Lemma what_closes_the_window_witness :
  exists n ms,
    AfterFires 1 = AfterFires n /\
    nth_error (after_queue (with_remaining_time 0 (state_of init))) n = Some (ms, UpdateTimer) /\
    infinity_input
      (dispatch ignore_Control_Key (AfterFires 1) (with_remaining_time 0 (state_of init))) =
    Some "run infinity.py".
Proof.
  destruct (what_closes_the_window ignore_Control_Key (AfterFires 1)
              (with_remaining_time 0 (state_of init)) eq_refl eq_refl)
    as [(k & He & _)|[[He _]|[(n & ms & He & Hn & _ & Hin)|[He _]]]];
    try discriminate He.
  exists n, ms. auto.
Defined.

(** ** The timeout cannot be avoided *)

Lemma nth_error_last {A} (q : list A) (x : A) :
  nth_error (q ++ [x])%list (List.length q) = Some x.
Proof. induction q as [|y q IH]; [reflexivity|exact IH]. Qed.

Section Timeout.

Variable class_Control_Key : key_event -> Tk.Text -> Tk.Text.

Local Abbreviation run := (mainloop class_Control_Key).



End Timeout.


(** ** What the printed lines tell *)

(** X8. The printed lines determine a non-empty captured text: two
    different non-empty texts never print the same lines, and the number of
    lines after [Prompt:] is the number of newlines of the text plus one.
    The placeholder output however is ambiguous: it is printed for no
    result, for the empty text, and for the text [(no input provided)]
    itself, and for nothing else. *)
Theorem printed_lines_determine_the_text :
  (forall s s', s <> "" -> s' <> "" ->
     printed (Some s) = printed (Some s') -> s = s') /\
  (forall s, s <> "" ->
     List.length (printed (Some s)) = 2 + count_char Py.nl s) /\
  (forall v, printed v = ["Prompt:"; "(no input provided)"] <->
     v = None \/ v = Some "" \/ v = Some "(no input provided)").
Proof.
  split; [|split].
  - intros s s' Hs Hs' Heq.
    rewrite (proj1 (printed_text s Hs)), (proj1 (printed_text s' Hs')) in Heq.
    injection Heq as Heq.
    rewrite <- (PyFacts.join_split Py.nl s), <- (PyFacts.join_split Py.nl s').
    now rewrite Heq.
  - intros s Hs. rewrite (proj1 (printed_text s Hs)). cbn [List.length].
    now rewrite length_split.
  - intros v. split.
    + destruct v as [[|c s]|]; auto.
      intros Heq. right; right.
      rewrite (proj1 (printed_text (String c s) ltac:(discriminate))) in Heq.
      assert (Hsplit : Py.split Py.nl (String c s) = ["(no input provided)"])
        by (injection Heq as Heq; exact Heq).
      rewrite <- (PyFacts.join_split Py.nl (String c s)). now rewrite Hsplit.
    + intros [-> | [-> | ->]]; reflexivity.
Qed.

(** Two lines of text print as three lines. *)
Lemma printed_lines_determine_the_text_witness :
  List.length (printed (Some (String "a" (String Py.nl "b")))) = 3.
Proof.
  refine (proj1 (proj2 printed_lines_determine_the_text) _ _). discriminate.
Defined.

(** ** Undo histories *)

Module HistoryFacts.
Import Tk.

Lemma no_separator_rev (group : list atom) :
  no_separator group -> no_separator (rev group).
Proof.
  unfold no_separator. rewrite !forallb_forall.
  intros H a Ha. apply H. now apply in_rev.
Qed.

Lemma no_separator_cons (a : atom) (group : list atom) :
  no_separator (a :: group) -> is_separator a = false /\ no_separator group.
Proof.
  unfold no_separator. cbn. intros H. apply andb_prop in H as [Ha Hg].
  split; [now destruct (is_separator a)|exact Hg].
Qed.

(** Every stack is a group of edits followed by a closed stack. *)
Lemma split_group (stack : list atom) :
  exists group rest,
    stack = (group ++ rest)%list /\ no_separator group /\ closed rest.
Proof.
  induction stack as [|a stack (group & rest & -> & Hg & Hr)].
  - exists [], []. repeat split. now left.
  - destruct a.
    + exists [], (Separator :: group ++ rest)%list. repeat split. right. eauto.
    + exists (Inserted pos s :: group), rest. repeat split; auto.
    + exists (Deleted pos s :: group), rest. repeat split; auto.
Qed.

(** [move_group] moves exactly the group, and drops the separator under
    it. *)
Lemma move_group_spec (act : atom -> string -> nat -> string * nat)
    (group rest : list atom) :
  (forall a t m, fst (act a t m) = fst (act a t 0)) ->
  no_separator group -> closed rest ->
  forall txt m to,
  exists m',
    move_group act (group ++ rest) txt m to =
    (skip_separator rest, fold_left (fun t a => fst (act a t 0)) group txt, m',
     (rev group ++ to)%list).
Proof.
  intros Hact Hg Hr. induction group as [|a group IH]; intros txt m to.
  - exists m. destruct Hr as [->|[r ->]]; reflexivity.
  - apply no_separator_cons in Hg as [Ha Hg].
    destruct (IH Hg (fst (act a txt m)) (snd (act a txt m)) (a :: to)) as [m' Hm'].
    exists m'. cbn [app move_group fold_left rev].
    rewrite <- app_assoc. cbn [app]. rewrite <- (Hact a txt m).
    destruct a; [discriminate| |]; destruct (act _ txt m) as [txt' m1]; exact Hm'.
Qed.

Lemma revert_atom_text (a : atom) (t : string) (m : nat) :
  fst (revert_atom a t m) = fst (revert_atom a t 0).
Proof. now destruct a. Qed.

Lemma apply_atom_text (a : atom) (t : string) (m : nat) :
  fst (apply_atom a t m) = fst (apply_atom a t 0).
Proof. now destruct a. Qed.

Lemma revert_all_cons (a : atom) (group : list atom) (txt : string) :
  revert_all (a :: group) txt = revert_all group (fst (revert_atom a txt 0)).
Proof. reflexivity. Qed.

Lemma apply_all_snoc (a : atom) (group : list atom) (txt : string) :
  apply_all (group ++ [a]) txt = fst (apply_atom a (apply_all group txt) 0).
Proof. unfold apply_all. now rewrite fold_left_app. Qed.

Lemma revert_all_snoc (a : atom) (group : list atom) (txt : string) :
  revert_all (group ++ [a]) txt = fst (revert_atom a (revert_all group txt) 0).
Proof. unfold revert_all. now rewrite fold_left_app. Qed.

(** Undoing a group and redoing it gives the text back, and the other way
    round. *)
Lemma apply_all_revert_all (group rest : list atom) (txt : string) :
  no_separator group -> history (group ++ rest) txt ->
  apply_all (rev group) (revert_all group txt) = txt.
Proof.
  revert txt. induction group as [|a group IH]; intros txt Hg Hh; [reflexivity|].
  apply no_separator_cons in Hg as [Ha Hg].
  cbn [rev]. rewrite apply_all_snoc, revert_all_cons.
  cbn [app] in Hh. inversion Hh; subst; try discriminate; cbn [revert_atom apply_atom fst].
  - rewrite TkFacts.raw_delete_raw_insert by assumption. now rewrite IH.
  - rewrite IH by assumption. now apply TkFacts.raw_delete_raw_insert.
Qed.

Lemma revert_all_apply_all (group rest : list atom) (txt : string) :
  no_separator group -> future (group ++ rest) txt ->
  revert_all (rev group) (apply_all group txt) = txt.
Proof.
  revert txt. induction group as [|a group IH]; intros txt Hg Hf; [reflexivity|].
  apply no_separator_cons in Hg as [Ha Hg].
  cbn [rev]. rewrite revert_all_snoc. unfold apply_all at 1. cbn [fold_left].
  fold (apply_all group (fst (apply_atom a txt 0))).
  cbn [app] in Hf. inversion Hf; subst; try discriminate; cbn [revert_atom apply_atom fst].
  - rewrite IH by assumption. now apply TkFacts.raw_delete_raw_insert.
  - rewrite TkFacts.raw_delete_raw_insert by assumption. now rewrite IH.
Qed.

(** A history stays one when the group on top goes over to the redo
    stack, and the other way round. *)
Lemma history_revert_all (group rest : list atom) :
  no_separator group ->
  forall txt r, history (group ++ rest) txt -> future r txt ->
  history rest (revert_all group txt) /\ future (rev group ++ r) (revert_all group txt).
Proof.
  intros Hg. induction group as [|a group IH]; intros txt r Hh Hf; [auto|].
  apply no_separator_cons in Hg as [Ha Hg].
  cbn [rev]. rewrite <- app_assoc, revert_all_cons. cbn [app] in *.
  inversion Hh; subst; try discriminate; cbn [revert_atom fst].
  - rewrite TkFacts.raw_delete_raw_insert by assumption.
    apply IH; [assumption|assumption|now constructor].
  - apply IH; [assumption|assumption|now constructor].
Qed.

Lemma future_apply_all (group rest : list atom) :
  no_separator group ->
  forall txt u, future (group ++ rest) txt -> history u txt ->
  future rest (apply_all group txt) /\ history (rev group ++ u) (apply_all group txt).
Proof.
  intros Hg. induction group as [|a group IH]; intros txt u Hf Hh; [auto|].
  apply no_separator_cons in Hg as [Ha Hg].
  cbn [rev]. rewrite <- app_assoc. unfold apply_all. cbn [fold_left app] in *.
  fold (apply_all group (fst (apply_atom a txt 0))).
  inversion Hf; subst; try discriminate; cbn [apply_atom fst].
  - apply IH; [assumption|assumption|now constructor].
  - rewrite TkFacts.raw_delete_raw_insert by assumption.
    apply IH; [assumption|assumption|now constructor].
Qed.

Lemma history_push_separator (u : list atom) (txt : string) :
  history u txt -> history (push_separator u) txt.
Proof. destruct u as [|[]]; cbn; auto; intros; now constructor. Qed.

Lemma history_skip_separator (u : list atom) (txt : string) :
  history u txt -> history (skip_separator u) txt.
Proof. destruct u as [|[]]; cbn; auto. now inversion 1. Qed.

Lemma future_push_separator (r : list atom) (txt : string) :
  future r txt -> future (push_separator r) txt.
Proof. destruct r as [|[]]; cbn; auto; intros; now constructor. Qed.

Lemma future_skip_separator (r : list atom) (txt : string) :
  future r txt -> future (skip_separator r) txt.
Proof. destruct r as [|[]]; cbn; auto. now inversion 1. Qed.

Lemma tidy_push_separator (stack : list atom) :
  tidy stack = true -> tidy (push_separator stack) = true.
Proof. destruct stack as [|[]]; cbn; auto. Qed.

Lemma tidy_skip_separator (stack : list atom) :
  tidy stack = true -> tidy (skip_separator stack) = true.
Proof.
  destruct stack as [|[] stack]; cbn [skip_separator]; auto.
  destruct stack as [|[] stack]; cbn; auto; discriminate.
Qed.

Lemma tidy_group (group rest : list atom) :
  no_separator group -> tidy (group ++ rest) = tidy rest.
Proof.
  induction group as [|a group IH]; intros Hg; [reflexivity|].
  apply no_separator_cons in Hg as [Ha Hg].
  destruct a; [discriminate| |]; cbn; auto.
Qed.

Lemma skip_push_separator (stack : list atom) :
  stack <> [] -> skip_separator (push_separator stack) = skip_separator stack.
Proof. destruct stack as [|[]]; cbn; intros; try reflexivity; contradiction. Qed.

(** Under the separator on top, if any, a tidy stack that is not empty has
    a group that is not empty. *)
Lemma top_group (stack : list atom) :
  tidy stack = true -> stack <> [] ->
  exists group rest,
    skip_separator stack = (group ++ rest)%list /\
    group <> [] /\ no_separator group /\ closed rest.
Proof.
  intros Ht Hne.
  destruct (split_group (skip_separator stack)) as (group & rest & Hs & Hg & Hr).
  exists group, rest. repeat split; auto.
  intros ->. cbn [app] in Hs.
  destruct stack as [|[] stack]; cbn [skip_separator] in Hs; try contradiction;
    subst rest; destruct Hr as [Hr|[r Hr]]; try discriminate Hr;
    subst stack; discriminate Ht.
Qed.

Lemma push_separator_group (group r : list atom) :
  group <> [] -> no_separator group ->
  push_separator (rev group ++ r) = Separator :: (rev group ++ r)%list.
Proof.
  intros Hne Hg. apply no_separator_rev in Hg.
  destruct (rev group) as [|a g] eqn:Hrev.
  - apply (f_equal (@rev atom)) in Hrev. rewrite rev_involutive in Hrev. contradiction.
  - apply no_separator_cons in Hg as [Ha _]. destruct a; [discriminate| |]; reflexivity.
Qed.

(** What a successful [edit_undo] does, and what a successful [edit_redo]
    does. *)
Lemma edit_undo_returns (w : Text) :
  tidy (undo_stack w) = true -> undo_stack w <> [] ->
  exists group rest m,
    skip_separator (undo_stack w) = (group ++ rest)%list /\
    group <> [] /\ no_separator group /\ closed rest /\
    edit_undo w =
    Returns tt
      {| chars := revert_all group (chars w); insert_mark := m;
         undo_stack := skip_separator rest;
         redo_stack := Separator :: (rev group ++ push_separator (redo_stack w))%list;
         last_edit_mode := last_edit_mode w |}.
Proof.
  intros Ht Hne.
  destruct (top_group _ Ht Hne) as (group & rest & Hs & Hgne & Hg & Hr).
  destruct (move_group_spec revert_atom group rest revert_atom_text Hg Hr
              (chars w) (insert_mark w) (push_separator (redo_stack w))) as [m Hm].
  exists group, rest, m. repeat split; auto.
  unfold edit_undo.
  destruct (push_separator (undo_stack w)) as [|b v] eqn:Hpush.
  { destruct (undo_stack w) as [|[]]; cbn in Hpush; try discriminate. contradiction. }
  rewrite <- Hpush, skip_push_separator, Hs, Hm by assumption.
  now rewrite push_separator_group.
Qed.

Lemma edit_redo_returns (w : Text) :
  tidy (redo_stack w) = true -> redo_stack w <> [] ->
  exists group rest m,
    skip_separator (redo_stack w) = (group ++ rest)%list /\
    group <> [] /\ no_separator group /\ closed rest /\
    edit_redo w =
    Returns tt
      {| chars := apply_all group (chars w); insert_mark := m;
         undo_stack := Separator :: (rev group ++ push_separator (undo_stack w))%list;
         redo_stack := skip_separator rest;
         last_edit_mode := last_edit_mode w |}.
Proof.
  intros Ht Hne.
  destruct (top_group _ Ht Hne) as (group & rest & Hs & Hgne & Hg & Hr).
  destruct (move_group_spec apply_atom group rest apply_atom_text Hg Hr
              (chars w) (insert_mark w) (push_separator (undo_stack w))) as [m Hm].
  exists group, rest, m. repeat split; auto.
  unfold edit_redo.
  destruct (redo_stack w) as [|b v] eqn:Hredo; [contradiction|].
  rewrite Hs, Hm. now rewrite push_separator_group.
Qed.

End HistoryFacts.

(** ** Well-formed widgets *)

Module WellFormed.
Import Tk HistoryFacts.

Lemma raw_insert_raw_delete (pos n : nat) (txt : string) :
  raw_insert pos (Py.take n (Py.drop pos txt)) (raw_delete pos n txt) = txt.
Proof.
  unfold raw_insert, raw_delete.
  destruct (Nat.le_gt_cases pos (String.length txt)) as [Hle|Hgt].
  - pose proof (PyFacts.length_take pos txt Hle) as Hlen.
    rewrite <- Hlen at 1. rewrite PyFacts.take_append.
    rewrite <- Hlen at 3. rewrite PyFacts.drop_append.
    rewrite <- PyFacts.drop_drop, PyFacts.take_drop. apply PyFacts.take_drop.
  - assert (Htake : forall m s, String.length s <= m -> Py.take m s = s).
    { intros m s. revert m. induction s as [|c s IH]; intros [|m] H; cbn in *;
        try reflexivity; try lia. now rewrite IH by lia. }
    assert (Hdrop : forall m s, String.length s <= m -> Py.drop m s = "").
    { intros m s. revert m. induction s as [|c s IH]; intros [|m] H; cbn in *;
        try reflexivity; try lia. apply IH. lia. }
    rewrite (Hdrop pos txt) by lia. rewrite (Hdrop (pos + n) txt) by lia.
    rewrite (Htake pos txt) by lia.
    rewrite !PyFacts.append_nil_r.
    rewrite (Htake pos txt) by lia. rewrite (Hdrop pos txt) by lia.
    destruct n; cbn; now rewrite !PyFacts.append_nil_r.
Qed.

Lemma length_raw_delete (pos n : nat) (txt : string) :
  pos <= String.length txt -> pos <= String.length (raw_delete pos n txt).
Proof.
  intros Hle. unfold raw_delete. rewrite PyFacts.length_append.
  rewrite PyFacts.length_take by assumption. lia.
Qed.

Lemma well_formed_edit_separator (w : Text) :
  well_formed w -> well_formed (edit_separator w).
Proof.
  intros (Hh & Ht & Hf & Htr). repeat split; cbn; auto.
  - now apply history_push_separator.
  - now apply tidy_push_separator.
Qed.

Lemma well_formed_record (mode : edit_mode) (w : Text) (txt : string) :
  history (undo_stack w) txt -> tidy (undo_stack w) = true ->
  let under := match record mode Separator w with
               | _ :: u => u
               | [] => []
               end in
  history under txt /\ tidy under = true.
Proof.
  intros Hh Ht. unfold record. cbn.
  destruct mode, (last_edit_mode w); cbn;
    auto using history_push_separator, tidy_push_separator.
Qed.

Lemma well_formed_insert (i : index) (s : string) (w : Text) :
  well_formed w -> well_formed (insert i s w).
Proof.
  intros (Hh & Ht & Hf & Htr). destruct s as [|c s]; [repeat split; assumption|].
  destruct (well_formed_record EditInsert w (chars w) Hh Ht) as [Hh' Ht'].
  unfold insert. repeat split; cbn [chars undo_stack redo_stack]; try constructor.
  - apply Nat.le_min_r.
  - exact Hh'.
  - exact Ht'.
Qed.

Lemma well_formed_delete (i1 i2 : index) (w : Text) :
  well_formed w -> well_formed (delete i1 i2 w).
Proof.
  intros (Hh & Ht & Hf & Htr). unfold delete.
  set (a := Nat.min (resolve w i1) (String.length (chars w))).
  set (b := Nat.min (resolve w i2) (String.length (chars w))).
  destruct (b <=? a)%nat eqn:Hba; [repeat split; assumption|].
  destruct (well_formed_record EditDelete w (chars w) Hh Ht) as [Hh' Ht'].
  repeat split; cbn [chars undo_stack redo_stack]; try constructor.
  - apply length_raw_delete. subst a. apply Nat.le_min_r.
  - rewrite raw_insert_raw_delete. exact Hh'.
  - exact Ht'.
Qed.

Lemma well_formed_mark (w : Text) (m : nat) :
  well_formed w ->
  well_formed (mkText (chars w) m (undo_stack w) (redo_stack w) (last_edit_mode w)).
Proof. intros H. exact H. Qed.

(** [edit_undo] and [edit_redo] keep a widget well formed, whether they
    return or raise. *)
Lemma well_formed_edit_undo (w : Text) :
  well_formed w ->
  match edit_undo w with
  | Returns _ w' => well_formed w'
  | Raises _ w' => well_formed w'
  end.
Proof.
  intros (Hh & Ht & Hf & Htr).
  destruct (undo_stack w) as [|a u] eqn:Hu.
  - unfold edit_undo. rewrite Hu. cbn.
    repeat split; cbn; auto using future_push_separator, tidy_push_separator.
  - destruct (edit_undo_returns w) as (group & rest & m & Hs & Hne & Hg & Hr & ->);
      [now rewrite Hu|now rewrite Hu|].
    rewrite <- Hu in *.
    apply history_skip_separator in Hh. rewrite Hs in Hh.
    destruct (history_revert_all group rest Hg (chars w) (push_separator (redo_stack w)) Hh)
      as [Hrest Hredo]; [now apply future_push_separator|].
    repeat split; cbn [chars undo_stack redo_stack].
    + now apply history_skip_separator.
    + apply tidy_skip_separator. rewrite <- (tidy_group group rest Hg), <- Hs.
      now apply tidy_skip_separator.
    + now constructor.
    + apply no_separator_rev in Hg.
      destruct (rev group) as [|g0 g] eqn:Hrev.
      { apply (f_equal (@rev atom)) in Hrev. rewrite rev_involutive in Hrev.
        contradiction. }
      rewrite <- Hrev in *.
      change (tidy (Separator :: (rev group ++ push_separator (redo_stack w))%list) = true).
      assert (Htail : tidy (rev group ++ push_separator (redo_stack w))%list = true)
        by (rewrite tidy_group by assumption; now apply tidy_push_separator).
      rewrite Hrev in *. apply no_separator_cons in Hg as [Hg0 _].
      destruct g0; [discriminate| |]; exact Htail.
Qed.

Lemma well_formed_edit_redo (w : Text) :
  well_formed w ->
  match edit_redo w with
  | Returns _ w' => well_formed w'
  | Raises _ w' => well_formed w'
  end.
Proof.
  intros (Hh & Ht & Hf & Htr).
  destruct (redo_stack w) as [|a r] eqn:Hredo.
  - unfold edit_redo. rewrite Hredo. cbn.
    repeat split; cbn; auto using history_push_separator, tidy_push_separator.
  - destruct (edit_redo_returns w) as (group & rest & m & Hs & Hne & Hg & Hr & ->);
      [now rewrite Hredo|now rewrite Hredo|].
    rewrite <- Hredo in *.
    apply future_skip_separator in Hf. rewrite Hs in Hf.
    destruct (future_apply_all group rest Hg (chars w) (push_separator (undo_stack w)) Hf)
      as [Hrest Hundo]; [now apply history_push_separator|].
    repeat split; cbn [chars undo_stack redo_stack].
    + now constructor.
    + apply no_separator_rev in Hg.
      destruct (rev group) as [|g0 g] eqn:Hrev.
      { apply (f_equal (@rev atom)) in Hrev. rewrite rev_involutive in Hrev.
        contradiction. }
      rewrite <- Hrev in *.
      change (tidy (Separator :: (rev group ++ push_separator (undo_stack w))%list) = true).
      assert (Htail : tidy (rev group ++ push_separator (undo_stack w))%list = true)
        by (rewrite tidy_group by assumption; now apply tidy_push_separator).
      rewrite Hrev in *. apply no_separator_cons in Hg as [Hg0 _].
      destruct g0; [discriminate| |]; exact Htail.
    + now apply future_skip_separator.
    + apply tidy_skip_separator. rewrite <- (tidy_group group rest Hg), <- Hs.
      now apply tidy_skip_separator.
Qed.

(** [edit_redo] right after a successful [edit_undo] gives the characters
    back, and so does [edit_undo] right after a successful [edit_redo]. *)
Lemma edit_redo_after_edit_undo (w : Text) :
  well_formed w -> undo_stack w <> [] ->
  exists w2 w3,
    edit_undo w = Returns tt w2 /\ edit_redo w2 = Returns tt w3 /\
    chars w3 = chars w.
Proof.
  intros (Hh & Ht & Hf & Htr) Hne.
  destruct (edit_undo_returns w Ht Hne) as (group & rest & m & Hs & Hgne & Hg & Hr & Hundo).
  apply history_skip_separator in Hh. rewrite Hs in Hh.
  destruct (move_group_spec apply_atom (rev group) (push_separator (redo_stack w))
              apply_atom_text (no_separator_rev _ Hg)
              (TkFacts.push_separator_closed _)
              (revert_all group (chars w)) m (push_separator (skip_separator rest)))
    as [m' Hm'].
  eexists. eexists. split; [exact Hundo|].
  unfold edit_redo. cbn [redo_stack undo_stack chars insert_mark skip_separator].
  rewrite Hm'. split; [reflexivity|]. cbn [chars].
  exact (apply_all_revert_all group rest (chars w) Hg Hh).
Qed.

Lemma edit_undo_after_edit_redo (w : Text) :
  well_formed w -> redo_stack w <> [] ->
  exists w2 w3,
    edit_redo w = Returns tt w2 /\ edit_undo w2 = Returns tt w3 /\
    chars w3 = chars w.
Proof.
  intros (Hh & Ht & Hf & Htr) Hne.
  destruct (edit_redo_returns w Htr Hne) as (group & rest & m & Hs & Hgne & Hg & Hr & Hredo).
  apply future_skip_separator in Hf. rewrite Hs in Hf.
  destruct (move_group_spec revert_atom (rev group) (push_separator (undo_stack w))
              revert_atom_text (no_separator_rev _ Hg)
              (TkFacts.push_separator_closed _)
              (apply_all group (chars w)) m (push_separator (skip_separator rest)))
    as [m' Hm'].
  eexists. eexists. split; [exact Hredo|].
  unfold edit_undo. cbn [redo_stack undo_stack chars insert_mark push_separator skip_separator].
  rewrite Hm'. split; [reflexivity|]. cbn [chars].
  exact (revert_all_apply_all group rest (chars w) Hg Hf).
Qed.

End WellFormed.

(** ** Undo and redo in a running dialog *)

Lemma well_formed_empty : well_formed Tk.empty.
Proof. repeat split; constructor. Qed.

Lemma undo_action_well_formed (st : App) :
  well_formed (input_text st) -> well_formed (input_text (state_of (undo_action st))).
Proof.
  intros Hw. pose proof (WellFormed.well_formed_edit_undo _ Hw) as H.
  unfold undo_action. run_method.
  destruct (Tk.edit_undo (input_text st)) as [[] w|[msg] w]; exact H.
Qed.

Lemma redo_action_well_formed (st : App) :
  well_formed (input_text st) -> well_formed (input_text (state_of (redo_action st))).
Proof.
  intros Hw. pose proof (WellFormed.well_formed_edit_redo _ Hw) as H.
  unfold redo_action. run_method.
  destruct (Tk.edit_redo (input_text st)) as [[] w|[msg] w]; exact H.
Qed.

Lemma update_timer_well_formed (st : App) :
  well_formed (input_text st) -> well_formed (input_text (state_of (update_timer st))).
Proof.
  intros Hw. unfold update_timer, bind, read, modify, root_after.
  cbn [remaining_time with_timer_label with_remaining_time].
  destruct (remaining_time st - 1 <? 0)%Z; [|exact Hw].
  rewrite submit_returns.
  cbn [state_of input_text with_destroyed with_infinity_input with_input_text].
  now apply WellFormed.well_formed_insert, WellFormed.well_formed_delete.
Qed.

Lemma call_well_formed (h : handler) (k : key_event) (st : App) :
  well_formed (input_text st) -> well_formed (input_text (state_of (call h k st))).
Proof.
  intros Hw. destruct h; cbn [call].
  - now apply undo_action_well_formed.
  - now apply redo_action_well_formed.
  - now rewrite submit_returns.
  - exact Hw.
  - rewrite on_key_press_returns. cbn.
    destruct (PrimFloat.ltb _ _); [now apply WellFormed.well_formed_edit_separator|exact Hw].
Qed.

Lemma fire_well_formed (table : list (key_pattern * handler)) (k : key_event) (st : App) :
  well_formed (input_text st) -> well_formed (input_text (fire table k st)).
Proof.
  intros Hw. unfold fire. destruct (destroyed st); [exact Hw|].
  destruct (best_match table k) as [[p h]|]; [|exact Hw].
  now apply call_well_formed.
Qed.

Section UndoRedo.

Variable class_Control_Key : key_event -> Tk.Text -> Tk.Text.

(** Whatever the [Text] class does on a Control-modified key, it leaves the
    widget well formed. *)
Hypothesis class_Control_Key_well_formed :
  forall k w, well_formed w -> well_formed (class_Control_Key k w).

Local Abbreviation run := (mainloop class_Control_Key).

Lemma fire_class_well_formed (f : Tk.Text -> Tk.Text) (st : App) :
  (forall w, well_formed w -> well_formed (f w)) ->
  well_formed (input_text st) -> well_formed (input_text (fire_class f st)).
Proof.
  intros Hf Hw. unfold fire_class. destruct (destroyed st); [exact Hw|now apply Hf].
Qed.

Lemma class_Text_well_formed (k : key_event) (w : Tk.Text) :
  well_formed w -> well_formed (class_Text class_Control_Key k w).
Proof.
  intros Hw. unfold class_Text. destruct (ev_keysym k) as [|c].
  - now apply WellFormed.well_formed_edit_separator, WellFormed.well_formed_insert.
  - destruct (ev_control k);
      [now apply class_Control_Key_well_formed|now apply WellFormed.well_formed_insert].
Qed.

Lemma dispatch_well_formed (e : event) (st : App) :
  well_formed (input_text st) ->
  well_formed (input_text (dispatch class_Control_Key e st)).
Proof.
  intros Hw. destruct e as [k|pos|clip| |n| ]; cbn [dispatch].
  - apply fire_well_formed. unfold before_root.
    apply fire_class_well_formed; [apply class_Text_well_formed|].
    now apply fire_well_formed.
  - unfold run_callback, edit_separator, modify. cbn [state_of input_text with_input_text].
    apply WellFormed.well_formed_edit_separator.
    apply fire_class_well_formed; [|exact Hw].
    intros w H. now apply WellFormed.well_formed_edit_separator.
  - apply fire_class_well_formed; [|exact Hw].
    intros w H.
    now apply WellFormed.well_formed_edit_separator, WellFormed.well_formed_insert,
      WellFormed.well_formed_edit_separator.
  - unfold run_callback. now rewrite submit_returns.
  - destruct (nth_error (after_queue st) n) as [[ms cb]|]; [|exact Hw].
    unfold run_callback. destruct cb; cbn [run_after]; try exact Hw.
    + now apply update_timer_well_formed.
    + now apply WellFormed.well_formed_edit_separator.
  - exact Hw.
Qed.

Lemma run_well_formed (events : list event) :
  well_formed (input_text (run events (state_of init))).
Proof.
  induction events as [|e events IH] using rev_ind; [exact well_formed_empty|].
  rewrite mainloop_app. cbn [mainloop].
  destruct (destroyed (run events (state_of init))); [exact IH|].
  now apply dispatch_well_formed.
Qed.

(** X9. In any state a run of the dialog can reach: if there is something
    to undo, [undo_action] followed by [redo_action] gives back the buffer
    as it was, and if there is something to redo, [redo_action] followed by
    [undo_action] does; no error message is shown on the way. *)
Theorem undo_and_redo_are_inverse_in_every_run (events : list event) :
  let st := run events (state_of init) in
  (Tk.undo_stack (input_text st) <> [] ->
   let undone := state_of (undo_action st) in
   let redone := state_of (redo_action undone) in
   Tk.chars (input_text redone) = Tk.chars (input_text st) /\
   status_label undone = status_label st /\
   status_label redone = status_label st) /\
  (Tk.redo_stack (input_text st) <> [] ->
   let redone := state_of (redo_action st) in
   let undone := state_of (undo_action redone) in
   Tk.chars (input_text undone) = Tk.chars (input_text st) /\
   status_label redone = status_label st /\
   status_label undone = status_label st).
Proof.
  intros st. pose proof (run_well_formed events) as Hw. fold st in Hw.
  split; intros Hne.
  - destruct (WellFormed.edit_redo_after_edit_undo _ Hw Hne)
      as (w2 & w3 & Hundo & Hredo & Hchars).
    assert (H1 : state_of (undo_action st) = with_input_text w2 st)
      by (unfold undo_action; run_method; now rewrite Hundo).
    cbn zeta. rewrite H1.
    assert (H2 : state_of (redo_action (with_input_text w2 st)) =
                 with_input_text w3 (with_input_text w2 st))
      by (unfold redo_action; run_method; now rewrite Hredo).
    rewrite H2. cbn. auto.
  - destruct (WellFormed.edit_undo_after_edit_redo _ Hw Hne)
      as (w2 & w3 & Hredo & Hundo & Hchars).
    assert (H1 : state_of (redo_action st) = with_input_text w2 st)
      by (unfold redo_action; run_method; now rewrite Hredo).
    cbn zeta. rewrite H1.
    assert (H2 : state_of (undo_action (with_input_text w2 st)) =
                 with_input_text w3 (with_input_text w2 st))
      by (unfold undo_action; run_method; now rewrite Hundo).
    rewrite H2. cbn. auto.
Qed.

End UndoRedo.

(** Type [a], pause, type [b], undo once: redo brings [ab] back, and undoing
    again after that gives [a] again. *)
Lemma undo_and_redo_are_inverse_in_every_run_witness :
  let st := mainloop ignore_Control_Key
              [press "a" 1000%float; press "b" 1002%float] (state_of init) in
  let undone := state_of (undo_action st) in
  Tk.chars (input_text st) = "ab" /\
  Tk.chars (input_text undone) = "a" /\
  Tk.chars (input_text (state_of (redo_action undone))) = "ab".
Proof.
  pose proof (undo_and_redo_are_inverse_in_every_run ignore_Control_Key
                (fun _ _ H => H)
                [press "a" 1000%float; press "b" 1002%float]) as [Hundo _].
  split; [reflexivity|]. split; [reflexivity|].
  refine (proj1 (Hundo _)). vm_compute. discriminate.
Defined.

(** ** Key presses that share a group *)

Lemma undo_redo_two_inserts (c1 c2 : ascii) (w : Tk.Text) :
  Tk.closed (Tk.undo_stack w) ->
  let w1 := Tk.insert Tk.InsertMark (String c1 "") w in
  let w2 := Tk.insert Tk.InsertMark (String c2 "") w1 in
  exists w3 w4,
    Tk.edit_undo w2 = Tk.Returns tt w3 /\ Tk.chars w3 = Tk.chars w /\
    Tk.edit_redo w3 = Tk.Returns tt w4 /\ Tk.chars w4 = Tk.chars w2.
Proof.
  intros Hclosed w1 w2.
  set (p1 := Nat.min (Tk.resolve w Tk.InsertMark) (String.length (Tk.chars w))).
  set (p2 := Nat.min (Tk.resolve w1 Tk.InsertMark) (String.length (Tk.chars w1))).
  assert (Hp1 : p1 <= String.length (Tk.chars w)) by (subst p1; lia).
  assert (Hp2 : p2 <= String.length (Tk.chars w1)) by (subst p2; lia).
  assert (Hc1 : Tk.chars w1 = Tk.raw_insert p1 (String c1 "") (Tk.chars w)) by reflexivity.
  assert (Hc2 : Tk.chars w2 = Tk.raw_insert p2 (String c2 "") (Tk.chars w1)) by reflexivity.
  assert (Hu2 : Tk.undo_stack w2 =
                Tk.Inserted p2 (String c2 "") :: Tk.Inserted p1 (String c1 "") :: Tk.undo_stack w).
  { subst w2 w1. unfold Tk.insert. cbn [Tk.undo_stack Tk.last_edit_mode]. unfold Tk.record.
    cbn [Tk.undo_stack Tk.last_edit_mode].
    destruct (Tk.last_edit_mode w);
      rewrite ?TkFacts.push_separator_of_closed by assumption; reflexivity. }
  assert (Hr2 : Tk.redo_stack w2 = []) by reflexivity.
  pose proof (TkFacts.raw_delete_raw_insert p2 (String c2 "") (Tk.chars w1) Hp2) as Hb2.
  pose proof (TkFacts.raw_delete_raw_insert p1 (String c1 "") (Tk.chars w) Hp1) as Hb1.
  change (String.length (String c2 "")) with 1 in Hb2.
  change (String.length (String c1 "")) with 1 in Hb1.
  unfold Tk.edit_undo. rewrite Hu2, Hr2, Hc2.
  cbn [Tk.push_separator Tk.skip_separator Tk.move_group Tk.revert_atom].
  change (String.length (String c2 "")) with 1.
  change (String.length (String c1 "")) with 1.
  rewrite Hb2, Hc1, Hb1.
  destruct Hclosed as [Hu|[rest Hu]]; rewrite Hu; cbn [Tk.move_group Tk.push_separator];
    eexists; eexists; (split; [reflexivity|]); (split; [reflexivity|]);
    unfold Tk.edit_redo; cbn [Tk.redo_stack Tk.undo_stack Tk.chars Tk.insert_mark
                              Tk.push_separator Tk.skip_separator Tk.move_group
                              Tk.apply_atom];
    (split; reflexivity).
Qed.

Section Typing.

Variable class_Control_Key : key_event -> Tk.Text -> Tk.Text.

Local Abbreviation handle := (dispatch class_Control_Key).

(** What a plain printing key does to an open window. *)
Lemma handle_printing_key (st : App) (c : ascii) (shift : bool) (t : float) :
  destroyed st = false ->
  handle (KeyPress (mkKey false shift (KChar c) t)) st =
  let w := if PrimFloat.ltb 1%float (PrimFloat.sub t (last_keystroke_time st))
           then Tk.edit_separator (input_text st) else input_text st in
  with_input_text (Tk.insert Tk.InsertMark (String c "") w)
    (with_last_keystroke_time t (with_input_text w st)).
Proof.
  intros Hopen.
  assert (Hnone : root_handler (mkKey false shift (KChar c) t) = None)
    by (destruct shift; reflexivity).
  rewrite handle_key, Hnone by assumption.
  rewrite (proj1 (before_root_open class_Control_Key _ st Hopen)).
  cbn [ev_time]. now rewrite on_key_press_returns.
Qed.

(** X10. Two printing keys pressed in an open window, the first starting
    an undo group and the second not more than a second after it, share that
    group: one [undo_action] after the second removes both characters, giving
    back the buffer as it was before the first, and [redo_action] brings
    both back. *)
Theorem key_presses_within_a_second_are_undone_together
    (st : App) (c1 c2 : ascii) (t1 t2 : float) :
  let first := handle (KeyPress (mkKey false false (KChar c1) t1)) st in
  let second := handle (KeyPress (mkKey false false (KChar c2) t2)) first in
  let undone := state_of (undo_action second) in
  let redone := state_of (redo_action undone) in
  destroyed st = false ->
  starts_group t1 st ->
  PrimFloat.ltb 1%float (PrimFloat.sub t2 t1) = false ->
  String.length (Tk.chars (input_text second)) =
    2 + String.length (Tk.chars (input_text st)) /\
  Tk.chars (input_text undone) = Tk.chars (input_text st) /\
  Tk.chars (input_text redone) = Tk.chars (input_text second) /\
  status_label undone = status_label st /\
  status_label redone = status_label st.
Proof.
  intros first second undone redone Hopen Hgroup Hquick.
  set (w := if PrimFloat.ltb 1%float (PrimFloat.sub t1 (last_keystroke_time st))
            then Tk.edit_separator (input_text st) else input_text st).
  assert (Hw : Tk.closed (Tk.undo_stack w) /\ Tk.chars w = Tk.chars (input_text st)).
  { subst w.
    destruct (PrimFloat.ltb 1%float (PrimFloat.sub t1 (last_keystroke_time st))) eqn:Hgap.
    - split; [apply TkFacts.push_separator_closed|reflexivity].
    - destruct Hgroup as [Hgap'|Hclosed]; [congruence|]. split; [exact Hclosed|reflexivity]. }
  destruct Hw as [Hclosed Hchars].
  assert (Hfirst : first =
            with_input_text (Tk.insert Tk.InsertMark (String c1 "") w)
              (with_last_keystroke_time t1 (with_input_text w st)))
    by (subst first; now rewrite handle_printing_key).
  assert (Hsecond : second =
            with_input_text
              (Tk.insert Tk.InsertMark (String c2 "")
                 (Tk.insert Tk.InsertMark (String c1 "") w))
              (with_last_keystroke_time t2 first)).
  { subst second. rewrite handle_printing_key by (rewrite Hfirst; exact Hopen).
    rewrite Hfirst. cbn [last_keystroke_time with_input_text with_last_keystroke_time
                         input_text]. rewrite Hquick. reflexivity. }
  destruct (undo_redo_two_inserts c1 c2 w Hclosed) as (w3 & w4 & Hundo & Hc3 & Hredo & Hc4).
  assert (Hundone : undone = with_input_text w3 second).
  { subst undone. rewrite Hsecond. unfold undo_action. run_method.
    rewrite Hundo. reflexivity. }
  assert (Hredone : redone = with_input_text w4 undone).
  { subst redone. rewrite Hundone. unfold redo_action. run_method.
    rewrite Hredo. reflexivity. }
  rewrite Hredone, Hundone, Hsecond, Hfirst.
  cbn [input_text status_label with_input_text with_last_keystroke_time].
  rewrite Hc4, Hc3, Hchars. split; [|repeat split; reflexivity].
  rewrite !TkFacts.chars_insert_at_mark by discriminate.
  rewrite !length_raw_insert, Hchars. reflexivity.
Qed.

End Typing.

(** The first two key presses of a dialog, half a second apart. *)
Lemma key_presses_within_a_second_are_undone_together_witness :
  let second := mainloop ignore_Control_Key
                  [press "a" 1000%float; press "b" 1000.5%float] (state_of init) in
  Tk.chars (input_text (state_of (undo_action second))) = "" /\
  Tk.chars (input_text (state_of (redo_action (state_of (undo_action second))))) = "ab".
Proof.
  pose proof (key_presses_within_a_second_are_undone_together ignore_Control_Key
                (state_of init) "a" "b" 1000%float 1000.5%float
                eq_refl (or_introl eq_refl) eq_refl) as (_ & Hundone & Hredone & _).
  split; [exact Hundone|exact Hredone].
Defined.

(** ** The separator that follows a paste *)

Section Pasting.

Variable class_Control_Key : key_event -> Tk.Text -> Tk.Text.

Local Abbreviation handle := (dispatch class_Control_Key).

(** X11. A paste queues, 100 ms ahead, a callback that pushes a separator
    (lines 146-150).  Once that callback has run in an open window, the next
    printing key is an undo group of its own however soon it is pressed: the
    callback leaves the buffer as it is, [undo_action] after the key press
    removes that key press only, and [redo_action] brings it back. *)
Theorem separator_after_paste_splits_the_typing
    (st : App) (clipboard : string) (n : nat) (ms : Z) (c : ascii) (t : float) :
  let separated := handle (AfterFires n) st in
  let typed := handle (KeyPress (mkKey false false (KChar c) t)) separated in
  let undone := state_of (undo_action typed) in
  let redone := state_of (redo_action undone) in
  destroyed st = false ->
  nth_error (after_queue st) n = Some (ms, EditSeparator) ->
  nth_error (after_queue (handle (Paste clipboard) st)) (List.length (after_queue st)) =
    Some (100%Z, EditSeparator) /\
  Tk.chars (input_text separated) = Tk.chars (input_text st) /\
  after_queue separated = remove_nth n (after_queue st) /\
  Tk.chars (input_text undone) = Tk.chars (input_text st) /\
  Tk.chars (input_text redone) = Tk.chars (input_text typed) /\
  String.length (Tk.chars (input_text typed)) = S (String.length (Tk.chars (input_text st))).
Proof.
  intros separated typed undone redone Hopen Hn.
  assert (Hsep : separated =
            with_input_text (Tk.edit_separator (input_text st))
              (with_after_queue (remove_nth n (after_queue st)) st)).
  { subst separated. cbn [dispatch]. rewrite Hn. reflexivity. }
  set (w0 := Tk.edit_separator (input_text st)) in *.
  set (w := if PrimFloat.ltb 1%float (PrimFloat.sub t (last_keystroke_time separated))
            then Tk.edit_separator (input_text separated) else input_text separated).
  assert (Hw : Tk.closed (Tk.undo_stack w) /\ Tk.chars w = Tk.chars (input_text st)).
  { subst w. rewrite Hsep. cbn [input_text with_input_text].
    destruct (PrimFloat.ltb _ _); (split; [apply TkFacts.push_separator_closed|reflexivity]). }
  destruct Hw as [Hclosed Hchars].
  assert (Htyped : typed =
            with_input_text (Tk.insert Tk.InsertMark (String c "") w)
              (with_last_keystroke_time t (with_input_text w separated))).
  { subst typed. rewrite handle_printing_key; [reflexivity|now rewrite Hsep]. }
  destruct (TkFacts.undo_redo_insert Tk.InsertMark c w Hclosed)
    as (w2 & w3 & Hundo & Hc2 & Hredo & Hc3).
  assert (Hundone : undone = with_input_text w2 typed).
  { subst undone. rewrite Htyped. unfold undo_action. run_method.
    rewrite Hundo. reflexivity. }
  assert (Hredone : redone = with_input_text w3 undone).
  { subst redone. rewrite Hundone. unfold redo_action. run_method.
    rewrite Hredo. reflexivity. }
  split.
  { cbn [dispatch]. unfold run_callback, handle_paste, root_after, modify, fire_class.
    cbn [state_of destroyed with_after_queue]. rewrite Hopen.
    cbn [after_queue with_input_text with_after_queue]. apply nth_error_last. }
  rewrite Hredone, Hundone, Htyped.
  cbn [input_text with_input_text with_last_keystroke_time].
  rewrite Hc3, Hc2, Hchars, Hsep. cbn [input_text after_queue with_input_text with_after_queue].
  repeat split; try reflexivity.
  rewrite TkFacts.chars_insert_at_mark by discriminate.
  now rewrite length_raw_insert, Hchars.
Qed.

End Pasting.

(** Paste [xy], let the delayed separator run, type [z] at once, undo. *)
Lemma separator_after_paste_splits_the_typing_witness :
  let pasted := dispatch ignore_Control_Key (Paste "xy") (state_of init) in
  let separated := dispatch ignore_Control_Key (AfterFires 2) pasted in
  let typed := dispatch ignore_Control_Key (press "z" 0.5%float) separated in
  Tk.chars (input_text typed) = "xyz" /\
  Tk.chars (input_text (state_of (undo_action typed))) = "xy".
Proof.
  pose proof (separator_after_paste_splits_the_typing ignore_Control_Key
                (dispatch ignore_Control_Key (Paste "xy") (state_of init))
                "" 2 100%Z "z" 0.5%float eq_refl eq_refl) as (_ & _ & _ & Hundone & _).
  split; [reflexivity|exact Hundone].
Defined.

(** ** The result and the buffer *)

Section Result.

Variable class_Control_Key : key_event -> Tk.Text -> Tk.Text.

Local Abbreviation handle := (dispatch class_Control_Key).
Local Abbreviation run := (mainloop class_Control_Key).

Lemma dispatch_result_is_the_buffer (e : event) (st : App) :
  destroyed st = false -> infinity_input st = None ->
  let st' := handle e st in
  infinity_input st' = None \/
  infinity_input st' = Some (Tk.chars (input_text st')) /\ destroyed st' = true.
Proof.
  intros Hopen Hnone st'. subst st'.
  destruct e as [k|pos|clip| |n| ].
  - rewrite handle_key by assumption.
    destruct (before_root_open class_Control_Key k st Hopen) as (_ & _ & Hin).
    destruct (root_handler k) as [h|] eqn:Hh; [|left; congruence].
    destruct h; cbn [call].
    + destruct (undo_action_returns (before_root class_Control_Key k st))
        as (r & -> & Hi & _). left. cbn [state_of]. congruence.
    + destruct (redo_action_returns (before_root class_Control_Key k st))
        as (r & -> & Hi & _). left. cbn [state_of]. congruence.
    + rewrite submit_returns. right. split; reflexivity.
    + left. cbn. congruence.
    + destruct (on_key_press_quiet (ev_time k) (before_root class_Control_Key k st))
        as [[Hi _] _]. left. congruence.
  - left. destruct (dispatch_closes_or_quiet class_Control_Key (Click pos) st)
      as [Hd|[Hi _]]; [|congruence].
    cbn [dispatch] in Hd |- *. unfold fire_class, run_callback, edit_separator, modify in *.
    rewrite Hopen in *. cbn in *. congruence.
  - left. cbn [dispatch]. unfold fire_class, run_callback, handle_paste, root_after, modify.
    cbn. rewrite Hopen. exact Hnone.
  - right. cbn [dispatch]. unfold run_callback. rewrite submit_returns. split; reflexivity.
  - cbn [dispatch]. destruct (nth_error (after_queue st) n) as [[ms cb]|]; [|now left].
    unfold run_callback. destruct cb; cbn [run_after]; try (left; exact Hnone).
    set (st1 := with_after_queue (remove_nth n (after_queue st)) st).
    destruct (Z.lt_ge_cases (remaining_time st1 - 1) 0) as [Hneg|Hpos].
    + destruct (update_timer_expires st1 Hneg) as (r & -> & Hc & Hi & Hd & _).
      right. cbn [state_of]. rewrite Hc. auto.
    + destruct (update_timer_reschedules st1 Hpos) as (r & -> & _ & _ & Hi & _).
      left. cbn [state_of]. rewrite Hi. exact Hnone.
  - left. exact Hnone.
Qed.

(** X12. Whenever a result has been captured, the window is closed and the
    result is exactly the text the buffer holds: what [get_input] returns
    is never out of date with respect to the widget, on submit as on
    timeout. *)
Theorem result_is_the_final_buffer (events : list event) :
  let st := run events (state_of init) in
  (infinity_input st = None \/
   infinity_input st = Some (Tk.chars (input_text st)) /\ destroyed st = true) /\
  (forall s, get_input class_Control_Key events = Some (Some s) ->
     s = Tk.chars (input_text st)).
Proof.
  intros st.
  assert (H : infinity_input st = None \/
              infinity_input st = Some (Tk.chars (input_text st)) /\ destroyed st = true).
  { subst st. induction events as [|e events IH] using rev_ind; [now left|].
    rewrite mainloop_app. cbn [mainloop].
    destruct (destroyed (run events (state_of init))) eqn:Hd;
      [rewrite Hd; exact IH|].
    apply dispatch_result_is_the_buffer; [exact Hd|].
    now apply (mainloop_unset_while_open class_Control_Key events). }
  split; [exact H|].
  intros s. unfold get_input. fold st.
  destruct (destroyed st); [|discriminate].
  intros Hs. injection Hs as Hs. destruct H as [H|[H _]]; congruence.
Qed.

End Result.

(** Type [a] and [b], undo, submit: the result is the buffer after the
    undo. *)
Lemma result_is_the_final_buffer_witness :
  get_input ignore_Control_Key
    [press "a" 1000%float; press "b" 1002%float;
     KeyPress (mkKey true false (KChar "z") 1003%float); SubmitButton] = Some (Some "a").
Proof.
  pose proof (result_is_the_final_buffer ignore_Control_Key
                [press "a" 1000%float; press "b" 1002%float;
                 KeyPress (mkKey true false (KChar "z") 1003%float); SubmitButton])
    as [_ H].
  rewrite (H "a" eq_refl). reflexivity.
Defined.
